(** * Kanban board: the Express board store and the zustand client cache

    A shallow embedding of
      - the request handlers of the backend (the server file that follows the
        README: [addToHistory], POST /api/tasks, PUT /api/tasks/:id,
        DELETE /api/tasks/:id, POST /api/tasks/:id/move), and
      - the client store of [kanban-frontend/src/store.ts] ([fetchBoard],
        [moveTask] with its optimistic update).

    Modelling conventions.
      - A JS object used as a dictionary ([data.tasks], [data.columns]) is a
        [gmap string _] of its own properties.  A read [obj[key]] that finds
        no own property goes on up the prototype chain: on the server what it
        finds there is part of the request's [Env], in the browser it is one
        of the properties of Object.prototype.
      - Request fields are [option string]: [None] is an absent (undefined)
        field.  Move indices are integers ([Z]), negative ones included.
      - [uuidv4()], [new Date().toISOString()] and the outcome of the file
        reads and writes are inputs of a request, gathered in [Env].
      - A handler maps the persisted document to a response and the document
        persisted afterwards. *)

From Stdlib Require Import ZArith Lia String Ascii.
From stdpp Require Import pretty.
From stdpp Require Import base option list gmap strings.

Local Open Scope string_scope.
Local Open Scope list_scope.
Local Open Scope nat_scope.

(** ** JavaScript primitives used by the program *)

Module Js.

(** The double quote character. *)
Definition dquote : string := String (ascii_of_nat 34) EmptyString.

(** What stands between the two titles of the update message, byte for byte
    as the source file has it: C3 A2, E2 80 A0, E2 80 99 (an arrow whose
    UTF-8 bytes were read as Windows-1252 and encoded again). *)
Definition arrow : string :=
  string_of_list_ascii
    (ascii_of_nat <$> [195; 162; 226; 128; 160; 226; 128; 153]).

(** [!s] for a string-or-undefined value: absent and empty are falsy. *)
Definition falsy (s : option string) : bool :=
  match s with
  | None => true
  | Some s => bool_decide (s = EmptyString)
  end.

(** [a || b] where [a] is a string or undefined. *)
Definition or_else (a : option string) (b : string) : string :=
  match a with
  | Some s => if falsy a then b else s
  | None => b
  end.

(** [a || b] where [b] too may be undefined. *)
Definition or_undefined (a b : option string) : option string :=
  if falsy a then b else a.

(** A string or undefined inside a template literal. *)
Definition text (s : option string) : string := default "undefined" s.

(** The names of the properties of Object.prototype: a read of one of them
    on an object without such an own property finds a function (for
    [__proto__], Object.prototype itself), which is truthy. *)
Definition prototype_names : list string :=
  ["constructor"; "__defineGetter__"; "__defineSetter__"; "hasOwnProperty";
   "__lookupGetter__"; "__lookupSetter__"; "isPrototypeOf";
   "propertyIsEnumerable"; "toString"; "valueOf"; "__proto__";
   "toLocaleString"].

(** A truthy value found up the prototype chain, as far as the handlers look
    at it: what its [.title] reads ([None] is undefined), and whether it is an
    object, on which a property write lands, or a primitive, on which it is
    dropped.  None of these values has [taskIds]. *)
Record Inherited := mkInherited {
  inh_title : option string;
  inh_object : bool
}.

(** The prototype chain of a plain object while no property has been written
    on Object.prototype or on its functions. *)
Definition fresh_prototype (key : string) : option Inherited :=
  if bool_decide (key ∈ prototype_names) then Some (mkInherited None true)
  else None.


(** The start index [Array.prototype.splice] computes from its first
    argument: negative values count from the end, everything is clamped to
    [0 .. len]. *)
Definition splice_start (len : nat) (start : Z) : nat :=
  if (start <? 0)%Z
  then Z.to_nat (Z.max (Z.of_nat len + start) 0)
  else Z.to_nat (Z.min start (Z.of_nat len)).

(** [l.splice(start, deleteCount, ...items)]: the array afterwards. *)
Definition splice {A} (start : Z) (deleteCount : nat) (items : list A)
    (l : list A) : list A :=
  let k := splice_start (length l) start in
  take k l ++ items ++ drop (k + deleteCount) l.

End Js.

(** ** Data model (types.ts, and the seed of [initializeDataFile]) *)

Record Task := mkTask {
  task_id : string;
  task_title : string;
  task_description : option string;
  createdAt : string
}.

Record Column := mkColumn {
  col_id : string;
  col_title : string;
  taskIds : list string
}.

Record HistoryEntry := mkEntry {
  entry_id : string;
  action : string;
  timestamp : string
}.

Record BoardData := mkBoard {
  tasks : gmap string Task;
  columns : gmap string Column;
  columnOrder : list string;
  history : option (list HistoryEntry)
}.

Definition set_taskIds (l : list string) (c : Column) : Column :=
  mkColumn (col_id c) (col_title c) l.

Definition set_tasks (t : gmap string Task) (d : BoardData) : BoardData :=
  mkBoard t (columns d) (columnOrder d) (history d).

Definition set_columns (c : gmap string Column) (d : BoardData) : BoardData :=
  mkBoard (tasks d) c (columnOrder d) (history d).

Definition set_history (h : list HistoryEntry) (d : BoardData) : BoardData :=
  mkBoard (tasks d) (columns d) (columnOrder d) (Some h).

(** [data.history || []] *)
Definition history_list (d : BoardData) : list HistoryEntry :=
  default [] (history d).

(** ** The board store (server) *)

Module Server.

(** What a request draws from its environment.

    [inherited key] is what a read of [key] on the parsed document's [tasks]
    or [columns] finds up the prototype chain when there is no such own
    property: [None] when it finds nothing or a falsy value.  It belongs to
    the process, not to the document: PUT on an id found this way writes
    [title] and [description] on that value (an object of the process, also
    Object.prototype itself under the id [__proto__]), and a later request
    sees the write only through its own [inherited].

    [uuidv4()] returns 36 characters, hexadecimal digits and dashes: never a
    name of Object.prototype. *)
Record Env := mkProcessEnv {
  uuid_task : string;     (* uuidv4() of the new task *)
  now_task : string;      (* new Date().toISOString() of the new task *)
  uuid_entry : string;    (* uuidv4() inside addToHistory *)
  now_entry : string;     (* new Date().toISOString() inside addToHistory *)
  read_ok : bool;         (* readData() returned the document *)
  write_ok : bool;        (* writeData() returned true *)
  inherited : string → option Js.Inherited
}.

(** The environment of a request in a process whose prototype objects are
    as they were at its start. *)
Definition mkEnv (uuid now uuid' now' : string) (read write : bool) : Env :=
  mkProcessEnv uuid now uuid' now' read write Js.fresh_prototype.

Inductive Response :=
| RTask (status : nat) (t : Task)
| RInherited                         (* 200, the JSON of an inherited value *)
| RNoContent                         (* 204 *)
| RSuccess                           (* 200, success: true *)
| RError (status : nat) (msg : string)
| RThrown.                           (* a TypeError escaped the handler *)

Definition initialData (now : string) : BoardData :=
  mkBoard
    {[ "task-1" := mkTask "task-1" "Welcome to your Kanban Board!"
         (Some "Drag me to different columns or edit me by clicking!") now ]}
    (<["todo" := mkColumn "todo" "To Do" ["task-1"]]>
       (<["inprogress" := mkColumn "inprogress" "In Progress" []]>
          {[ "done" := mkColumn "done" "Done" [] ]}))
    ["todo"; "inprogress"; "done"]
    (Some []).

Definition new_entry (e : Env) (act : string) : HistoryEntry :=
  mkEntry (uuid_entry e) act (now_entry e).

Definition addToHistory (e : Env) (data : BoardData) (act : string)
    : BoardData :=
  set_history (take 5 (new_entry e act :: history_list data)) data.

(** The end of every mutating handler: write the document, answer. *)
Definition persist (e : Env) (file data : BoardData) (ok : Response)
    (failure : string) : Response * BoardData :=
  if write_ok e then (ok, data) else (RError 500 failure, file).

Definition created_msg (title : string) : string :=
  "Created task: " +:+ Js.dquote +:+ title +:+ Js.dquote.

Definition updated_msg (old new : string) : string :=
  "Updated task: " +:+ Js.dquote +:+ old +:+ Js.dquote +:+ " "
    +:+ Js.arrow +:+ " " +:+ Js.dquote +:+ new +:+ Js.dquote.

Definition deleted_msg (title : string) : string :=
  "Deleted task: " +:+ Js.dquote +:+ title +:+ Js.dquote.

Definition moved_msg (title src dst : string) : string :=
  "Moved " +:+ Js.dquote +:+ title +:+ Js.dquote +:+ " from " +:+ src
    +:+ " to " +:+ dst.

(** POST /api/tasks *)
Definition createTask (e : Env) (title description : option string)
    (file : BoardData) : Response * BoardData :=
  match title with
  | Some t =>
    if Js.falsy title then (RError 400 "Task title is required", file)
    else if negb (read_ok e)
    then (RError 500 "Failed to read board data", file)
    else
      let taskId := uuid_task e in
      let newTask :=
        mkTask taskId t (Some (Js.or_else description "")) (now_task e) in
      let data := set_tasks (<[taskId := newTask]> (tasks file)) file in
      match columns data !! "todo" with
      | None => (RThrown, file)
      | Some todo =>
        let todo' := set_taskIds (taskIds todo ++ [taskId]) todo in
        let data := set_columns (<["todo" := todo']> (columns data)) data in
        let data := addToHistory e data (created_msg t) in
        persist e file data (RTask 201 newTask) "Failed to save task"
      end
  | None => (RError 400 "Task title is required", file)
  end.

(** [data.tasks[id]], as far as the handlers use it: [None] when it is
    falsy, otherwise what [.title] of the value reads ([None] in it is
    undefined).  An own property is a task; without one the read goes up the
    prototype chain. *)
Definition found_title (e : Env) (file : BoardData) (id : string)
    : option (option string) :=
  match tasks file !! id with
  | Some t => Some (Some (task_title t))
  | None => Js.inh_title <$> inherited e id
  end.

(** Whether [data.columns[c]] is truthy. *)
Definition column_truthy (e : Env) (file : BoardData) (c : string) : bool :=
  match columns file !! c with
  | Some _ => true
  | None => bool_decide (is_Some (inherited e c))
  end.

(** PUT /api/tasks/:id.  On a value that is not a task of the document the
    two writes leave the document alone: only the history entry is written,
    and the answer is the JSON of that value. *)
Definition updateTask (e : Env) (id : string)
    (title description : option string) (file : BoardData)
    : Response * BoardData :=
  if negb (read_ok e) then (RError 404 "Task not found", file)
  else
    match tasks file !! id with
    | None =>
      match inherited e id with
      | None => (RError 404 "Task not found", file)
      | Some v =>
        let oldTitle := Js.inh_title v in
        let newTitle :=
          if Js.inh_object v then Js.or_undefined title oldTitle
          else oldTitle in
        let data :=
          addToHistory e file
            (updated_msg (Js.text oldTitle) (Js.text newTitle)) in
        persist e file data RInherited "Failed to update task"
      end
    | Some t =>
      let oldTitle := task_title t in
      let newTitle := Js.or_else title (task_title t) in
      let newDescription :=
        match description with
        | Some d => Some d
        | None => task_description t
        end in
      let t' := mkTask (task_id t) newTitle newDescription (createdAt t) in
      let data := set_tasks (<[id := t']> (tasks file)) file in
      let data := addToHistory e data (updated_msg oldTitle newTitle) in
      persist e file data (RTask 200 t') "Failed to update task"
    end.

(** DELETE /api/tasks/:id *)
Definition deleteTask (e : Env) (id : string) (file : BoardData)
    : Response * BoardData :=
  if negb (read_ok e) then (RError 404 "Task not found", file)
  else
    match found_title e file id with
    | None => (RError 404 "Task not found", file)
    | Some taskTitle =>
      let cols :=
        (λ c, set_taskIds (filter (λ taskId, taskId ≠ id) (taskIds c)) c)
          <$> columns file in
      let data := set_columns cols file in
      let data := set_tasks (delete id (tasks data)) data in
      let data := addToHistory e data (deleted_msg (Js.text taskTitle)) in
      persist e file data RNoContent "Failed to delete task"
    end.

(** POST /api/tasks/:id/move.  [sourceColumn] and [destColumn] are the same
    object exactly when the two column ids are equal, so the insertion then
    works on the array the removal has already shortened.  When both are
    truthy but one is not a column of the document, its [taskIds] is
    undefined and [splice] throws before anything is written. *)
Definition moveTask (e : Env) (id sourceColumnId destColumnId : string)
    (sourceIndex destIndex : Z) (file : BoardData)
    : Response * BoardData :=
  if negb (read_ok e) then (RError 404 "Task not found", file)
  else
    match found_title e file id with
    | None => (RError 404 "Task not found", file)
    | Some title =>
      match columns file !! sourceColumnId, columns file !! destColumnId with
      | Some sourceColumn, Some destColumn =>
        let sourceColumn' :=
          set_taskIds (Js.splice sourceIndex 1 [] (taskIds sourceColumn))
            sourceColumn in
        let cols := <[sourceColumnId := sourceColumn']> (columns file) in
        let destObject :=
          if decide (sourceColumnId = destColumnId)
          then sourceColumn' else destColumn in
        let destColumn' :=
          set_taskIds (Js.splice destIndex 0 [id] (taskIds destObject))
            destObject in
        let cols := <[destColumnId := destColumn']> cols in
        let data := set_columns cols file in
        let taskTitle := Js.text title in
        let data :=
          if decide (sourceColumnId ≠ destColumnId)
          then addToHistory e data
                 (moved_msg taskTitle (col_title sourceColumn)
                    (col_title destColumn))
          else data in
        persist e file data RSuccess "Failed to move task"
      | _, _ =>
        if column_truthy e file sourceColumnId
           && column_truthy e file destColumnId
        then (RThrown, file)
        else (RError 400 "Invalid column", file)
      end
    end.

(** A request to one of the four mutating routes. *)
Inductive Request :=
| CreateTask (title description : option string)
| UpdateTask (id : string) (title description : option string)
| DeleteTask (id : string)
| MoveTask (id sourceColumnId destColumnId : string)
    (sourceIndex destIndex : Z).

Definition handle (e : Env) (r : Request) (file : BoardData)
    : Response * BoardData :=
  match r with
  | CreateTask title description => createTask e title description file
  | UpdateTask id title description =>
      updateTask e id title description file
  | DeleteTask id => deleteTask e id file
  | MoveTask id src dst si di => moveTask e id src dst si di file
  end.

(** The persisted document after one request, and after a sequence of them
    (requests are handled one after the other). *)
Definition step (file : BoardData) (er : Env * Request) : BoardData :=
  (handle er.1 er.2 file).2.

Definition run (file : BoardData) (rs : list (Env * Request)) : BoardData :=
  foldl step file rs.

Definition reachable (d : BoardData) : Prop :=
  ∃ now rs, d = run (initialData now) rs.

(** P1 / I1: a task id is referenced by at most one column. *)
Definition at_most_one_column (d : BoardData) : Prop :=
  ∀ id c1 c2 col1 col2,
    columns d !! c1 = Some col1 → columns d !! c2 = Some col2 →
    id ∈ taskIds col1 → id ∈ taskIds col2 → c1 = c2.

(** The invariant behind P1: no column lists an id twice, no two columns
    share an id (I1), and every listed id is the id of a task (I4). *)
Definition columns_wf (d : BoardData) : Prop :=
  (∀ c col, columns d !! c = Some col → NoDup (taskIds col)) ∧
  at_most_one_column d ∧
  (∀ c col id, columns d !! c = Some col → id ∈ taskIds col →
               is_Some (tasks d !! id)).

(** A move request addresses its task: if [data.tasks[id]] is truthy, be
    it a task or a value found up the prototype chain, and both columns are
    columns of the document (otherwise nothing is written), the element that
    [sourceColumn.taskIds.splice(sourceIndex, 1)] removes is the moved id. *)
Definition addresses_task (d : BoardData) (e : Env) (r : Request) : bool :=
  match r with
  | MoveTask id src dst si _ =>
    match found_title e d id, columns d !! src, columns d !! dst with
    | Some _, Some sc, Some _ =>
      bool_decide
        (taskIds sc !! Js.splice_start (length (taskIds sc)) si = Some id)
    | _, _, _ => true
    end
  | _ => true
  end.

(** The uuid drawn for a new task is not the id of an existing task. *)
Definition fresh_uuid (d : BoardData) (e : Env) (r : Request) : bool :=
  match r with
  | CreateTask _ _ => bool_decide (tasks d !! uuid_task e = None)
  | _ => true
  end.

(** A sequence of requests in which every move addresses its task and every
    uuid is fresh, checked along the run. *)
Fixpoint admissible (d : BoardData) (rs : list (Env * Request)) : bool :=
  match rs with
  | [] => true
  | er :: rs =>
    addresses_task d er.1 er.2 && fresh_uuid d er.1 er.2
      && admissible (step d er) rs
  end.

End Server.

(** ** The client cache (store.ts), on values *)

Module Client.

Record TaskStore := mkStore {
  boardData : option BoardData;
  isLoading : bool;
  error : option string;
  filter : string
}.

(** What a [catch] clause receives: an [Error] with its message, or any other
    thrown value. *)
Inductive Thrown :=
| ErrorObject (message : string)
| NotAnError.

(** The outcome of [await fetch(...)] (and of [response.json()] where the body
    is read). *)
Inductive Reply (A : Type) :=
| Ok (body : A)              (* response.ok *)
| NotOk (status : nat)       (* a response with ok = false *)
| Rejected (t : Thrown).     (* the promise rejected *)
Arguments Ok {A} body.
Arguments NotOk {A} status.
Arguments Rejected {A} t.

(** Requests the store sends. *)
Inductive Call :=
| GetBoard
| PostMove (taskId sourceColumnId destColumnId : string)
    (sourceIndex destIndex : Z).

(** [error instanceof Error ? error.message : fallback] *)
Definition message_of (t : Thrown) (fallback : string) : string :=
  match t with
  | ErrorObject m => m
  | NotAnError => fallback
  end.

(** What the [try] block yields for a reply: the body, or the value thrown
    ([!response.ok] throws an [Error] that carries the status). *)
Definition outcome {A} (r : Reply A) : Thrown + A :=
  match r with
  | Ok body => inr body
  | NotOk status =>
      inl (ErrorObject ("HTTP error! status: " +:+ pretty status))
  | Rejected t => inl t
  end.

Definition set_error (m : option string) (s : TaskStore) : TaskStore :=
  mkStore (boardData s) (isLoading s) m (filter s).

Definition set_boardData (d : BoardData) (s : TaskStore) : TaskStore :=
  mkStore (Some d) (isLoading s) (error s) (filter s).

Definition fetchBoard (reply : Reply BoardData) (s : TaskStore) : TaskStore :=
  let s := mkStore (boardData s) true None (filter s) in
  match outcome reply with
  | inr data => mkStore (Some data) false (error s) (filter s)
  | inl t =>
      mkStore (boardData s) false
        (Some (message_of t "Failed to fetch board data")) (filter s)
  end.

(** The optimistic update of [moveTask], as a function on the board value.
    [None]: a TypeError is thrown while spreading the [taskIds] of a column
    that [columns] does not have (a value found under the column id up the
    prototype chain spreads to an empty object, whose [taskIds] is undefined
    as well). *)
Definition optimistic (taskId sourceColumnId destColumnId : string)
    (sourceIndex destIndex : Z) (currentData : BoardData)
    : option BoardData :=
  match columns currentData !! sourceColumnId with
  | None => None
  | Some sourceColumn =>
    let sourceColumn' :=
      set_taskIds (Js.splice sourceIndex 1 [] (taskIds sourceColumn))
        sourceColumn in
    let destObject :=
      if decide (sourceColumnId = destColumnId)
      then Some sourceColumn' else columns currentData !! destColumnId in
    match destObject with
    | None => None
    | Some destColumn =>
      let destColumn' :=
        set_taskIds (Js.splice destIndex 0 [taskId] (taskIds destColumn))
          destColumn in
      Some (set_columns
              (<[destColumnId := destColumn']>
                 (<[sourceColumnId := sourceColumn']> (columns currentData)))
              currentData)
    end
  end.

(** The store after the synchronous part of [moveTask]; [None] when the
    optimistic update throws (the promise rejects, nothing is sent). *)
Definition apply_optimistic (taskId sourceColumnId destColumnId : string)
    (sourceIndex destIndex : Z) (s : TaskStore) : option TaskStore :=
  match boardData s with
  | None => Some s
  | Some currentData =>
    match optimistic taskId sourceColumnId destColumnId sourceIndex destIndex
            currentData with
    | Some newData => Some (set_boardData newData s)
    | None => None
    end
  end.

(** [moveTask]: the final store and the requests sent, in order.
    [move_reply] answers the move request, [board_reply] the re-fetch (if one
    is made). *)
Definition moveTask (taskId sourceColumnId destColumnId : string)
    (sourceIndex destIndex : Z) (move_reply : Reply unit)
    (board_reply : Reply BoardData) (s : TaskStore)
    : TaskStore * list Call :=
  match apply_optimistic taskId sourceColumnId destColumnId sourceIndex
          destIndex s with
  | None => (s, [])
  | Some s1 =>
    let post :=
      PostMove taskId sourceColumnId destColumnId sourceIndex destIndex in
    match outcome move_reply with
    | inr _ => (s1, [post])
    | inl t =>
      let s2 := set_error (Some (message_of t "Failed to move task")) s1 in
      (fetchBoard board_reply s2, [post; GetBoard])
    end
  end.

End Client.

(** ** The optimistic update on a heap of objects

    Reference equality and in-place mutation need object identities: the
    store holds references, [{...o}] and [[...a]] allocate, [splice] and
    property assignment mutate the object they are applied to. *)

Module Heap.

Abbreviation loc := nat.

Inductive Value :=
| VString (s : string)
| VRef (l : loc).

(** A heap cell: an object (its own properties) or an array. *)
Inductive Cell :=
| CObject (props : gmap string Value)
| CArray (items : list Value).

(** Locations are allocated in order: the heap is the list of its cells. *)
Abbreviation heap := (list Cell).

(** A computation reads and writes the heap and may throw a TypeError
    ([None]); the heap is threaded either way. *)
Definition M (A : Type) : Type := heap → option A * heap.

Definition ret {A} (a : A) : M A := λ h, (Some a, h).

Definition bind {A B} (m : M A) (k : A → M B) : M B :=
  λ h, match m h with
       | (Some a, h') => k a h'
       | (None, h') => (None, h')
       end.

Notation "'let*' x ':=' m 'in' k" := (bind m (λ x, k))
  (at level 10, x name, m at level 100, k at level 200).

Definition alloc (c : Cell) : M loc := λ h, (Some (length h), h ++ [c]).

(** The heap is read at the types of types.ts: what the program reads
    through or spreads is a reference to an object, a reference to an array
    or undefined.  Where a heap has something else in such a place (a
    string, an array for an object, a reference to nothing) the model
    throws.

    [o[key]]: reading a property of undefined throws; an array has none of
    the properties read here. *)
Definition get (o : option Value) (key : string) : M (option Value) :=
  λ h, match o with
       | Some (VRef l) =>
         match h !! l with
         | Some (CObject props) => (Some (props !! key), h)
         | Some (CArray _) => (Some None, h)
         | None => (None, h)
         end
       | _ => (None, h)
       end.

(** [{...o}]: a new object with the own properties of [o]; spreading
    undefined gives an empty object. *)
Definition spread_object (o : option Value) : M loc :=
  λ h, match o with
       | None => alloc (CObject ∅) h
       | Some (VRef l) =>
         match h !! l with
         | Some (CObject props) => alloc (CObject props) h
         | _ => (None, h)
         end
       | Some (VString _) => (None, h)
       end.

(** [[...a]]: a new array with the items of [a]; undefined is not iterable. *)
Definition spread_array (a : option Value) : M loc :=
  λ h, match a with
       | Some (VRef l) =>
         match h !! l with
         | Some (CArray items) => alloc (CArray items) h
         | _ => (None, h)
         end
       | _ => (None, h)
       end.

(** [o[key] = v] on the object at [l]. *)
Definition set_prop (l : loc) (key : string) (v : Value) : M unit :=
  λ h, match h !! l with
       | Some (CObject props) =>
           (Some (), <[l := CObject (<[key := v]> props)]> h)
       | _ => (None, h)
       end.

(** [a.splice(start, deleteCount, ...items)] on the array [a] refers to. *)
Definition splice (a : option Value) (start : Z) (deleteCount : nat)
    (items : list Value) : M unit :=
  λ h, match a with
       | Some (VRef l) =>
         match h !! l with
         | Some (CArray old) =>
             (Some (), <[l := CArray (Js.splice start deleteCount items old)]> h)
         | _ => (None, h)
         end
       | _ => (None, h)
       end.

(** The body of [if (currentData) { ... }] in [moveTask]: returns [newData],
    the object handed to [set]. *)
Definition optimistic (taskId sourceColumnId destColumnId : string)
    (sourceIndex destIndex : Z) (currentData : loc) : M loc :=
  let* newData := spread_object (Some (VRef currentData)) in
  let* cols := get (Some (VRef newData)) "columns" in
  let* src := get cols sourceColumnId in
  let* sourceColumn := spread_object src in
  let* destColumn :=
    (if decide (sourceColumnId = destColumnId) then ret sourceColumn
     else (let* dst := get cols destColumnId in spread_object dst)) in
  (* Remove from source *)
  let* ids := get (Some (VRef sourceColumn)) "taskIds" in
  let* ids' := spread_array ids in
  let* _ := set_prop sourceColumn "taskIds" (VRef ids') in
  let* ids := get (Some (VRef sourceColumn)) "taskIds" in
  let* _ := splice ids sourceIndex 1 [] in
  (* Add to destination *)
  let* ids := get (Some (VRef destColumn)) "taskIds" in
  let* ids' := spread_array ids in
  let* _ := set_prop destColumn "taskIds" (VRef ids') in
  let* ids := get (Some (VRef destColumn)) "taskIds" in
  let* _ := splice ids destIndex 0 [VString taskId] in
  (* Update columns *)
  let* cols := get (Some (VRef newData)) "columns" in
  let* newCols := spread_object cols in
  let* _ := set_prop newCols sourceColumnId (VRef sourceColumn) in
  let* _ := set_prop newCols destColumnId (VRef destColumn) in
  let* _ := set_prop newData "columns" (VRef newCols) in
  ret newData.

(** [hk] is [h] with at least one more object allocated; the objects of [h]
    are as they were. *)
Definition grown (h hk : heap) : Prop :=
  h `prefix_of` hk ∧ length h < length hk.

(** The column object a board object refers to under a column id. *)
Definition column_of (h : heap) (board : loc) (columnId : string)
    : option Value :=
  match (let* c := get (Some (VRef board)) "columns" in get c columnId) h with
  | (Some v, _) => v
  | (None, _) => None
  end.

(** The [columns] mapping object of a board object. *)
Definition columns_of (h : heap) (board : loc) : option Value :=
  match get (Some (VRef board)) "columns" h with
  | (Some v, _) => v
  | (None, _) => None
  end.

(** The [taskIds] array object of a column. *)
Definition taskIds_of (h : heap) (column : option Value) : option Value :=
  match get column "taskIds" h with
  | (Some v, _) => v
  | (None, _) => None
  end.

(** The items of the array a value refers to. *)
Definition items_of (h : heap) (a : option Value) : option (list Value) :=
  match a with
  | Some (VRef l) =>
    match h !! l with
    | Some (CArray items) => Some items
    | _ => None
    end
  | _ => None
  end.

(** The object [v] refers to holds the column [col]: its id, its title and,
    in an array of its own, its task ids. *)
Definition holds_column (h : heap) (v : Value) (col : Column) : Prop :=
  ∃ l props a,
    v = VRef l ∧ h !! l = Some (CObject props) ∧
    props !! "id" = Some (VString (col_id col)) ∧
    props !! "title" = Some (VString (col_title col)) ∧
    props !! "taskIds" = Some (VRef a) ∧
    h !! a = Some (CArray (VString <$> taskIds col)).

(** The board object at [board] holds the columns [cols], key by key. *)
Definition holds_columns (h : heap) (board : loc)
    (cols : gmap string Column) : Prop :=
  ∃ boardProps lc props,
    h !! board = Some (CObject boardProps) ∧
    boardProps !! "columns" = Some (VRef lc) ∧
    h !! lc = Some (CObject props) ∧
    ∀ c, option_Forall2 (holds_column h) (props !! c) (cols !! c).

End Heap.

(** ** More of the board store: the read routes and document invariants *)

Module Board.

(** GET /api/board *)
Definition getBoard (e : Server.Env) (file : BoardData)
    : Server.Response + BoardData :=
  if Server.read_ok e then inr file
  else inl (Server.RError 500 "Failed to read board data").

(** GET /api/history *)
Definition getHistory (e : Server.Env) (file : BoardData)
    : Server.Response + list HistoryEntry :=
  if Server.read_ok e then inr (history_list file)
  else inl (Server.RError 500 "Failed to read board data").

(** I4: every id a column lists is the id of a stored task. *)
Definition ids_have_tasks (d : BoardData) : Prop :=
  ∀ c col id, columns d !! c = Some col → id ∈ taskIds col →
              is_Some (tasks d !! id).

(** No move among the requests names an id that is found up the prototype
    chain. *)
Definition moves_name_no_inherited (rs : list (Server.Env * Server.Request))
    : bool :=
  forallb (λ er, match er.2 with
                 | Server.MoveTask id _ _ _ _ =>
                   match Server.inherited er.1 id with
                   | None => true
                   | Some _ => false
                   end
                 | _ => true
                 end) rs.

(** Every stored task is listed by some column. *)
Definition tasks_are_listed (d : BoardData) : Prop :=
  ∀ id, is_Some (tasks d !! id) →
        ∃ c col, columns d !! c = Some col ∧ id ∈ taskIds col.

(** I3: [columnOrder] lists the keys of [columns], each once. *)
Definition columnOrder_wf (d : BoardData) : Prop :=
  NoDup (columnOrder d) ∧
  ∀ c, c ∈ columnOrder d ↔ is_Some (columns d !! c).

(** All the ids the board shows, column after column in [columnOrder]
    (a column id without a column contributes nothing). *)
Definition listed_ids (d : BoardData) : list string :=
  columnOrder d ≫= λ c, from_option taskIds [] (columns d !! c).

End Board.

(** ** The remaining actions of the client store (store.ts) *)

Module Store.

(** Requests of the store other than the move. *)
Inductive Sent :=
| GetBoard
| PostTask (title : string) (description : option string)
| PutTask (id title : string) (description : option string)
| DeleteTask (id : string).

(** createTask: POST /tasks, then fetchBoard; a failure of the POST only
    sets [error]. *)
Definition createTask (title : string) (description : option string)
    (reply : Client.Reply unit) (board_reply : Client.Reply BoardData)
    (s : Client.TaskStore) : Client.TaskStore * list Sent :=
  match Client.outcome reply with
  | inr _ =>
      (Client.fetchBoard board_reply s, [PostTask title description; GetBoard])
  | inl t =>
      (Client.set_error (Some (Client.message_of t "Failed to create task")) s,
       [PostTask title description])
  end.

(** updateTask: PUT /tasks/:id, then fetchBoard. *)
Definition updateTask (id title : string) (description : option string)
    (reply : Client.Reply unit) (board_reply : Client.Reply BoardData)
    (s : Client.TaskStore) : Client.TaskStore * list Sent :=
  match Client.outcome reply with
  | inr _ =>
      (Client.fetchBoard board_reply s,
       [PutTask id title description; GetBoard])
  | inl t =>
      (Client.set_error (Some (Client.message_of t "Failed to update task")) s,
       [PutTask id title description])
  end.

(** deleteTask: DELETE /tasks/:id, then fetchBoard. *)
Definition deleteTask (id : string)
    (reply : Client.Reply unit) (board_reply : Client.Reply BoardData)
    (s : Client.TaskStore) : Client.TaskStore * list Sent :=
  match Client.outcome reply with
  | inr _ => (Client.fetchBoard board_reply s, [DeleteTask id; GetBoard])
  | inl t =>
      (Client.set_error (Some (Client.message_of t "Failed to delete task")) s,
       [DeleteTask id])
  end.

Definition setFilter (filter : string) (s : Client.TaskStore)
    : Client.TaskStore :=
  Client.mkStore (Client.boardData s) (Client.isLoading s) (Client.error s)
    filter.

Definition clearError (s : Client.TaskStore) : Client.TaskStore :=
  Client.set_error None s.

End Store.

(** ** Store and server over a connection that delivers

    What [fetch] resolves to when the request reaches the Express handler and
    its answer comes back: [response.ok] is a status from 200 to 299.  A
    handler that threw sends no answer. *)

Module System.

Definition status (r : Server.Response) : option nat :=
  match r with
  | Server.RTask st _ => Some st
  | Server.RInherited => Some 200
  | Server.RNoContent => Some 204
  | Server.RSuccess => Some 200
  | Server.RError st _ => Some st
  | Server.RThrown => None
  end.

Definition reply (r : Server.Response) : option (Client.Reply unit) :=
  match status r with
  | Some st =>
      Some (if bool_decide (200 ≤ st ≤ 299) then Client.Ok ()
            else Client.NotOk st)
  | None => None
  end.

(** The answer to GET /board. *)
Definition board_reply (e : Server.Env) (file : BoardData)
    : Client.Reply BoardData :=
  match Board.getBoard e file with
  | inr data => Client.Ok data
  | inl r =>
    match status r with
    | Some st => Client.NotOk st
    | None => Client.Rejected Client.NotAnError
    end
  end.

(** A store action against the server: [e] serves the mutation, [e'] the
    re-fetch.  The result is the store and the persisted document afterwards;
    [None] when the handler sent no answer. *)
Definition createTask (e e' : Server.Env) (title : string)
    (description : option string) (s : Client.TaskStore) (file : BoardData)
    : option (Client.TaskStore * BoardData) :=
  let served := Server.createTask e (Some title) description file in
  match reply served.1 with
  | Some r =>
      Some ((Store.createTask title description r
               (board_reply e' served.2) s).1, served.2)
  | None => None
  end.

Definition updateTask (e e' : Server.Env) (id title : string)
    (description : option string) (s : Client.TaskStore) (file : BoardData)
    : option (Client.TaskStore * BoardData) :=
  let served := Server.updateTask e id (Some title) description file in
  match reply served.1 with
  | Some r =>
      Some ((Store.updateTask id title description r
               (board_reply e' served.2) s).1, served.2)
  | None => None
  end.

Definition deleteTask (e e' : Server.Env) (id : string)
    (s : Client.TaskStore) (file : BoardData)
    : option (Client.TaskStore * BoardData) :=
  let served := Server.deleteTask e id file in
  match reply served.1 with
  | Some r =>
      Some ((Store.deleteTask id r (board_reply e' served.2) s).1, served.2)
  | None => None
  end.

(** moveTask: nothing reaches the server when the optimistic update throws. *)
Definition moveTask (e e' : Server.Env) (taskId src dst : string)
    (si di : Z) (s : Client.TaskStore) (file : BoardData)
    : option (Client.TaskStore * BoardData) :=
  match Client.apply_optimistic taskId src dst si di s with
  | None => Some (s, file)
  | Some _ =>
    let served := Server.moveTask e taskId src dst si di file in
    match reply served.1 with
    | Some r =>
        Some ((Client.moveTask taskId src dst si di r
                 (board_reply e' served.2) s).1, served.2)
    | None => None
    end
  end.

End System.

(** ** Components: what they send and what they show

    [String.prototype.trim], [toLowerCase], [includes] and
    [Date.prototype.toLocaleDateString] are taken as they come: parameters of
    the section. *)

Module Ui.

Record Location := mkLocation {
  droppableId : string;
  index : nat
}.

Record DropResult := mkDrop {
  destination : option Location;
  source : Location;
  draggableId : string
}.

(** The arguments [onDragEnd] passes to [moveTask]. *)
Record Move := mkMove {
  taskId : string;
  sourceColumnId : string;
  destColumnId : string;
  sourceIndex : Z;
  destIndex : Z
}.

(** What [boardData.tasks[id]] gives a card to show: a task, or, for an id
    that is no own property but a name of Object.prototype, the value found
    there (a function or the prototype, without a title).  The browser's
    Object.prototype is the fresh one: no client code writes on it. *)
Inductive Shown :=
| Card (t : Task)
| Builtin (key : string).

Definition lookup_task (b : BoardData) (id : string) : option Shown :=
  match tasks b !! id with
  | Some t => Some (Card t)
  | None =>
    if bool_decide (id ∈ Js.prototype_names) then Some (Builtin id) else None
  end.

(** [l.filter(p)] for a predicate that can throw: [None] when it does. *)
Fixpoint filter_or_throw {A} (p : A → option bool) (l : list A)
    : option (list A) :=
  match l with
  | [] => Some []
  | x :: l =>
    match p x with
    | None => None
    | Some keep =>
      match filter_or_throw p l with
      | None => None
      | Some k => Some (if keep then x :: k else k)
      end
    end
  end.

(** App.onDragEnd: [None] when it returns without calling [moveTask]. *)
Definition onDragEnd (result : DropResult) : option Move :=
  match destination result with
  | None => None
  | Some dest =>
    if bool_decide (droppableId dest = droppableId (source result))
       && bool_decide (index dest = index (source result))
    then None
    else Some (mkMove (draggableId result) (droppableId (source result))
                 (droppableId dest) (Z.of_nat (index (source result)))
                 (Z.of_nat (index dest)))
  end.

Section builtins.
Variable trim : string → string.
Variable toLowerCase : string → string.
Variable includes : string → string → bool.
Variable toLocaleDateString : Z → string.


(** TaskCard.handleSave: the title and description passed to [updateTask]. *)
Definition handleSave (editTitle editDescription : string)
    : option (string * string) :=
  if Js.falsy (Some (trim editTitle)) then None
  else Some (trim editTitle, trim editDescription).

(** The predicate of App.getFilteredTasks and of SearchFilter. *)
Definition matches (filter : string) (task : Task) : bool :=
  includes (toLowerCase (task_title task)) (toLowerCase filter)
  || match task_description task with
     | Some d =>
       if Js.falsy (Some d) then false
       else includes (toLowerCase d) (toLowerCase filter)
     | None => false
     end.

(** The predicate on what [filter(Boolean)] has kept: reading
    [task.title.toLowerCase] throws on a value without a title. *)
Definition matches_shown (filter : string) (s : Shown) : option bool :=
  match s with
  | Card task => Some (matches filter task)
  | Builtin _ => None
  end.

(** App.getFilteredTasks; [None] when the filter predicate throws. *)
Definition getFilteredTasks (boardData : option BoardData) (filter : string)
    (ids : list string) : option (list Shown) :=
  match boardData with
  | None => Some []
  | Some b =>
    let found := omap (lookup_task b) ids in
    if Js.falsy (Some filter) then Some found
    else filter_or_throw (matches_shown filter) found
  end.

(** The columns App renders, in [columnOrder], each with the cards shown;
    [None] when rendering throws: [columnOrder] names a column that
    [columns] lacks (its [taskIds] cannot be read, also not on a value found
    up the prototype chain), or the filter predicate throws. *)
Definition shown (b : BoardData) (filter : string)
    : option (list (Column * list Shown)) :=
  mapM (λ c, match columns b !! c with
             | Some column =>
                 pair column
                   <$> getFilteredTasks (Some b) filter (taskIds column)
             | None => None
             end) (columnOrder b).

(** SearchFilter: [totalTasks] and [filteredCount]. *)
Definition totalTasks (boardData : option BoardData) : nat :=
  match boardData with
  | Some b => size (tasks b)
  | None => 0
  end.

Definition filteredCount (boardData : option BoardData) (filter : string)
    : nat :=
  match boardData with
  | Some b =>
    if Js.falsy (Some filter) then totalTasks boardData
    else length (base.filter (λ task, matches filter task)
                   (map_to_list (tasks b)).*2)
  | None => totalTasks boardData
  end.

(** TaskHistory.formatTimestamp, on milliseconds since the epoch; [date] is
    [None] for a timestamp that does not parse (its time is NaN and every
    comparison fails).  [getTime] gives whole milliseconds, so [Math.floor]
    of the quotient is the floor division of integers. *)
Definition formatTimestamp (now : Z) (date : option Z) : string :=
  match date with
  | None => "Invalid Date"
  | Some t =>
    let diffInMinutes := ((now - t) / 60000)%Z in
    if (diffInMinutes <? 1)%Z then "Now"
    else if (diffInMinutes <? 60)%Z then pretty diffInMinutes +:+ "m ago"
    else if (diffInMinutes <? 1440)%Z
    then pretty (diffInMinutes / 60)%Z +:+ "h ago"
    else toLocaleDateString t
  end.

End builtins.

End Ui.

(** * Properties of the board store *)

(** ** Creating a task *)

(** What a 201 answer of POST /api/tasks tells about the request and the
    document written. *)
Lemma createTask_created_inv e title description file t d' :
  Server.createTask e title description file = (Server.RTask 201 t, d') →
  ∃ title' todo,
    title = Some title' ∧ title' ≠ "" ∧
    Server.read_ok e = true ∧ Server.write_ok e = true ∧
    columns file !! "todo" = Some todo ∧
    t = mkTask (Server.uuid_task e) title'
          (Some (Js.or_else description "")) (Server.now_task e) ∧
    d' = Server.addToHistory e
           (set_columns
              (<["todo" := set_taskIds (taskIds todo ++ [Server.uuid_task e])
                             todo]> (columns file))
              (set_tasks (<[Server.uuid_task e := t]> (tasks file)) file))
           (Server.created_msg title').
Proof.
  unfold Server.createTask, Server.persist.
  destruct title as [title'|]; [|discriminate].
  cbn [Js.falsy]. case_bool_decide as Hne; [discriminate|].
  destruct (Server.read_ok e); [|discriminate]. cbn [negb].
  cbn [columns set_tasks].
  destruct (columns file !! "todo") as [todo|] eqn:Htodo; [|discriminate].
  destruct (Server.write_ok e); [|discriminate].
  intros [= <- <-]. exists title', todo. done.
Qed.




(** ** What every handler leaves alone *)

Lemma persist_cases e file data ok failure :
  (Server.persist e file data ok failure).2 = data
  ∨ (Server.persist e file data ok failure).2 = file.
Proof. unfold Server.persist. destruct (Server.write_ok e); auto. Qed.

(** What a request can do to the document: nothing, or the effect of one of
    the four handlers, followed by the history push where the handler logs.
    An update of a value that is no task of the document only logs. *)
Lemma step_cases d e r :
  Server.step d (e, r) = d
  ∨ (∃ title descr todo,
       r = Server.CreateTask (Some title) descr ∧
       columns d !! "todo" = Some todo ∧
       Server.step d (e, r)
       = Server.addToHistory e
           (set_columns
              (<["todo" := set_taskIds (taskIds todo ++ [Server.uuid_task e])
                             todo]> (columns d))
              (set_tasks
                 (<[Server.uuid_task e :=
                      mkTask (Server.uuid_task e) title
                        (Some (Js.or_else descr "")) (Server.now_task e)]>
                    (tasks d)) d))
           (Server.created_msg title))
  ∨ (∃ id title descr t,
       r = Server.UpdateTask id title descr ∧ tasks d !! id = Some t ∧
       Server.step d (e, r)
       = Server.addToHistory e
           (set_tasks
              (<[id := mkTask (task_id t) (Js.or_else title (task_title t))
                         (match descr with
                          | Some x => Some x
                          | None => task_description t
                          end) (createdAt t)]> (tasks d)) d)
           (Server.updated_msg (task_title t)
              (Js.or_else title (task_title t))))
  ∨ (∃ id title descr v act,
       r = Server.UpdateTask id title descr ∧ tasks d !! id = None ∧
       Server.inherited e id = Some v ∧
       Server.step d (e, r) = Server.addToHistory e d act)
  ∨ (∃ id title,
       r = Server.DeleteTask id ∧ Server.found_title e d id = Some title ∧
       Server.step d (e, r)
       = Server.addToHistory e
           (set_tasks (delete id (tasks d))
              (set_columns
                 ((λ c, set_taskIds
                          (filter (λ taskId, taskId ≠ id) (taskIds c)) c)
                    <$> columns d) d))
           (Server.deleted_msg (Js.text title)))
  ∨ (∃ id src dst si di title sc dc,
       r = Server.MoveTask id src dst si di ∧
       Server.found_title e d id = Some title ∧
       columns d !! src = Some sc ∧ columns d !! dst = Some dc ∧
       let sc' := set_taskIds (Js.splice si 1 [] (taskIds sc)) sc in
       let dobj := if decide (src = dst) then sc' else dc in
       let moved :=
         set_columns
           (<[dst := set_taskIds (Js.splice di 0 [id] (taskIds dobj)) dobj]>
              (<[src := sc']> (columns d))) d in
       Server.step d (e, r)
       = if decide (src ≠ dst)
         then Server.addToHistory e moved
                (Server.moved_msg (Js.text title) (col_title sc)
                   (col_title dc))
         else moved).
Proof.
  unfold Server.step. cbn [fst snd].
  destruct r as [title descr|id title descr|id|id src dst si di];
    cbn [Server.handle].
  - unfold Server.createTask.
    destruct title as [t|]; [|by left]. destruct (Js.falsy _); [by left|].
    destruct (negb _); [by left|]. cbn [columns set_tasks].
    destruct (columns d !! "todo") as [todo|] eqn:Htodo; [|by left].
    match goal with |- context [Server.persist e d ?data ?ok ?f] =>
      destruct (persist_cases e d data ok f) as [-> | ->]; [|by left] end.
    right; left. by exists t, descr, todo.
  - unfold Server.updateTask. destruct (negb _); [by left|].
    destruct (tasks d !! id) as [t|] eqn:Ht.
    + match goal with |- context [Server.persist e d ?data ?ok ?f] =>
        destruct (persist_cases e d data ok f) as [-> | ->]; [|by left] end.
      right; right; left. by exists id, title, descr, t.
    + destruct (Server.inherited e id) as [v|] eqn:Hv; [|by left].
      match goal with |- context [Server.persist e d ?data ?ok ?f] =>
        destruct (persist_cases e d data ok f) as [-> | ->]; [|by left] end.
      do 3 right; left. by eexists id, title, descr, v, _.
  - unfold Server.deleteTask. destruct (negb _); [by left|].
    destruct (Server.found_title e d id) as [t|] eqn:Ht; [|by left].
    match goal with |- context [Server.persist e d ?data ?ok ?f] =>
      destruct (persist_cases e d data ok f) as [-> | ->]; [|by left] end.
    do 4 right; left. by exists id, t.
  - unfold Server.moveTask. destruct (negb _); [by left|].
    destruct (Server.found_title e d id) as [t|] eqn:Ht; [|by left].
    destruct (columns d !! src) as [sc|] eqn:Hsrc;
      [|left; by destruct (_ && _)].
    destruct (columns d !! dst) as [dc|] eqn:Hdst;
      [|left; by destruct (_ && _)].
    match goal with |- context [Server.persist e d ?data ?ok ?f] =>
      destruct (persist_cases e d data ok f) as [-> | ->]; [|by left] end.
    do 5 right. by exists id, src, dst, si, di, t, sc, dc.
Qed.

(** The columns after a move, key by key. *)
Lemma lookup_moved_columns (cols : gmap string Column) src dst sc' dc' c col :
  <[dst := dc']> (<[src := sc']> cols) !! c = Some col →
  (c = dst ∧ col = dc') ∨ (c = src ∧ c ≠ dst ∧ col = sc')
  ∨ (c ≠ src ∧ c ≠ dst ∧ cols !! c = Some col).
Proof.
  rewrite !lookup_insert. repeat case_decide; naive_solver.
Qed.

Ltac one_step d e r :=
  destruct (step_cases d e r) as
    [-> | [(title & descr & todo & -> & Htodo & ->)
        | [(id & title & descr & t & -> & Ht & ->)
        | [(id & title & descr & v & act & -> & Ht & Hv & ->)
        | [(id & title & -> & Ht & ->)
        | (id & src & dst & si & di & title & sc & dc
           & -> & Ht & Hsc & Hdc & ->)]]]]].

(** The columns a request leaves behind, column by column: a handler never
    adds or removes a column, and never renames one. *)
Lemma step_column_present d er c :
  is_Some (columns (Server.step d er) !! c) ↔ is_Some (columns d !! c).
Proof.
  destruct er as [e r]. one_step d e r; [done|..]; cbn.
  - destruct (decide (c = "todo")) as [->|Hc].
    + rewrite lookup_insert_eq, Htodo. split; eauto.
    + by rewrite lookup_insert_ne.
  - done.
  - done.
  - rewrite lookup_fmap. by rewrite fmap_is_Some.
  - assert (∀ x y, is_Some ((<[dst := x]> (<[src := y]> (columns d))) !! c)
                   ↔ is_Some (columns d !! c)) as Hins.
    { intros x y. destruct (decide (c = dst)) as [->|?].
      - rewrite lookup_insert_eq, Hdc. split; eauto.
      - rewrite lookup_insert_ne by done.
        destruct (decide (c = src)) as [->|?].
        + rewrite lookup_insert_eq, Hsc. split; eauto.
        + by rewrite lookup_insert_ne. }
    destruct (decide (src ≠ dst)); cbn; apply Hins.
Qed.

Lemma step_columnOrder d er : columnOrder (Server.step d er) = columnOrder d.
Proof.
  destruct er as [e r]. one_step d e r; try done.
  cbv zeta. by destruct (decide (src ≠ dst)).
Qed.

Lemma run_snoc d rs er :
  Server.run d (rs ++ [er]) = Server.step (Server.run d rs) er.
Proof. unfold Server.run. by rewrite foldl_app. Qed.

Lemma run_columnOrder d rs : columnOrder (Server.run d rs) = columnOrder d.
Proof.
  revert d. induction rs as [|er rs IH]; intros d; [done|].
  cbn. by rewrite IH, step_columnOrder.
Qed.

Lemma run_column_present d rs c :
  is_Some (columns (Server.run d rs) !! c) ↔ is_Some (columns d !! c).
Proof.
  revert d. induction rs as [|er rs IH]; intros d; [done|].
  cbn. by rewrite IH, step_column_present.
Qed.

(** C3 as stated fails: the handler pushes onto [data.columns.todo], which
    need not be the first column of [columnOrder].  In this document
    [inprogress] is first; it stays empty and the id lands in [todo]. *)
Lemma createTask_ignores_columnOrder :
  let e := Server.mkEnv "uuid-1" "2024-01-01" "uuid-2" "2024-01-01" true true in
  let file :=
    mkBoard ∅
      (<["inprogress" := mkColumn "inprogress" "In Progress" []]>
         {[ "todo" := mkColumn "todo" "To Do" [] ]})
      ["inprogress"; "todo"] (Some []) in
  head (columnOrder file) = Some "inprogress" ∧
  ∃ t d',
    Server.createTask e (Some "Buy milk") None file
      = (Server.RTask 201 t, d') ∧
    taskIds <$> columns d' !! "inprogress" = Some [] ∧
    taskIds <$> columns d' !! "todo" = Some [task_id t].
Proof.
  cbv zeta. split; [reflexivity|]. eexists _, _.
  split; [vm_compute; reflexivity|]. by vm_compute.
Qed.

(** C3, amended: a successful createTask (answer 201) stores the new task
    under the id drawn from uuidv4(), appends that id at the end of the
    [taskIds] of the column [todo] and leaves every other column as it was;
    [todo] exists and is the first of [columnOrder] in every document
    reachable from the seed. *)
Theorem createTask_appends_to_todo :
  (∀ e title description file t d',
     Server.createTask e title description file = (Server.RTask 201 t, d') →
     ∃ title' todo,
       title = Some title' ∧ title' ≠ "" ∧
       task_id t = Server.uuid_task e ∧ task_title t = title' ∧
       tasks d' = <[Server.uuid_task e := t]> (tasks file) ∧
       columns file !! "todo" = Some todo ∧
       columns d' !! "todo"
         = Some (mkColumn (col_id todo) (col_title todo)
                   (taskIds todo ++ [Server.uuid_task e])) ∧
       (∀ c, c ≠ "todo" → columns d' !! c = columns file !! c) ∧
       columnOrder d' = columnOrder file) ∧
  (∀ d, Server.reachable d →
     head (columnOrder d) = Some "todo" ∧ is_Some (columns d !! "todo")).
Proof.
  split.
  - intros e title description file t d' Hcreate.
    apply createTask_created_inv in Hcreate
      as (title' & todo & -> & Hne & _ & _ & Htodo & -> & ->).
    exists title', todo. repeat split; try done.
    + cbn. apply lookup_insert_eq.
    + intros c Hc. cbn. by rewrite lookup_insert_ne.
  - intros d (now & rs & ->). split.
    + by rewrite run_columnOrder.
    + apply run_column_present. cbn. rewrite lookup_insert_eq. eauto.
Qed.

Lemma createTask_appends_to_todo_witness :
  let e := Server.mkEnv "uuid-1" "2024-01-01" "uuid-2" "2024-01-01" true true in
  let r := Server.createTask e (Some "Buy milk") None (Server.initialData "n") in
  taskIds <$> columns r.2 !! "todo" = Some ["task-1"; "uuid-1"] ∧
  taskIds <$> columns r.2 !! "inprogress" = Some [] ∧
  taskIds <$> columns r.2 !! "done" = Some [].
Proof.
  cbv zeta.
  set (e := Server.mkEnv "uuid-1" "2024-01-01" "uuid-2" "2024-01-01" true true).
  destruct (Server.createTask e (Some "Buy milk") None (Server.initialData "n"))
    as [resp d'] eqn:Hrun.
  assert (∃ t, resp = Server.RTask 201 t) as [t ->].
  { vm_compute in Hrun. injection Hrun as <- _. eauto. }
  destruct (proj1 createTask_appends_to_todo _ _ _ _ _ _ Hrun)
    as (title' & todo & _ & _ & _ & _ & _ & Htodo & Htodo' & Hother & _).
  cbn [snd]. rewrite Htodo', !Hother by done.
  vm_compute in Htodo. injection Htodo as <-. by vm_compute.
Defined.



(** ** Updating a task *)



(** ** Moving a task *)

(** What a success answer of POST /api/tasks/:id/move tells about the
    request and the document written. *)
Lemma moveTask_success_inv e id src dst si di file d' :
  Server.moveTask e id src dst si di file = (Server.RSuccess, d') →
  ∃ title sc dc,
    Server.found_title e file id = Some title ∧
    columns file !! src = Some sc ∧ columns file !! dst = Some dc ∧
    let sc' := set_taskIds (Js.splice si 1 [] (taskIds sc)) sc in
    let dobj := if decide (src = dst) then sc' else dc in
    let moved :=
      set_columns
        (<[dst := set_taskIds (Js.splice di 0 [id] (taskIds dobj)) dobj]>
           (<[src := sc']> (columns file))) file in
    d' = if decide (src ≠ dst)
         then Server.addToHistory e moved
                (Server.moved_msg (Js.text title) (col_title sc)
                   (col_title dc))
         else moved.
Proof.
  unfold Server.moveTask, Server.persist.
  destruct (negb _); [discriminate|].
  destruct (Server.found_title e file id) as [title|]; [|discriminate].
  destruct (columns file !! src) as [sc|];
    [|by destruct (_ && _)].
  destruct (columns file !! dst) as [dc|];
    [|by destruct (_ && _)].
  destruct (Server.write_ok e); [|discriminate].
  intros [= <-]. by exists title, sc, dc.
Qed.

(** The title a handler reads for an id that is a task of the document. *)
Lemma found_title_own e file id t :
  tasks file !! id = Some t →
  Server.found_title e file id = Some (Some (task_title t)).
Proof. unfold Server.found_title. by intros ->. Qed.

Lemma found_title_Some e file id title :
  Server.found_title e file id = Some title →
  (∃ t, tasks file !! id = Some t ∧ title = Some (task_title t))
  ∨ (∃ v, tasks file !! id = None ∧ Server.inherited e id = Some v
          ∧ title = Js.inh_title v).
Proof.
  unfold Server.found_title. destruct (tasks file !! id) as [t|].
  - intros [= <-]. left. by exists t.
  - destruct (Server.inherited e id) as [v|]; [|done].
    intros [= <-]. right. by exists v.
Qed.

(** C7: a successful move between two different columns puts exactly one
    entry, with the action Moved <quoted title> from <source title> to
    <dest title>, at the front of the history (cut to five entries); a
    successful move within one column leaves the history as it is.  The
    title is the one [data.tasks[id].title] reads: the title of the task,
    for an id that is a task of the document. *)
Theorem moveTask_logs_cross_column_only e id src dst si di file d' :
  Server.moveTask e id src dst si di file = (Server.RSuccess, d') →
  ∃ title sc dc,
    Server.found_title e file id = Some title ∧
    (∀ t, tasks file !! id = Some t → title = Some (task_title t)) ∧
    columns file !! src = Some sc ∧ columns file !! dst = Some dc ∧
    (src ≠ dst →
     history d'
       = Some (take 5
                 (mkEntry (Server.uuid_entry e)
                    ("Moved " +:+ Js.dquote +:+ Js.text title +:+ Js.dquote
                       +:+ " from " +:+ col_title sc +:+ " to "
                       +:+ col_title dc)
                    (Server.now_entry e)
                  :: history_list file))) ∧
    (src = dst → history d' = history file).
Proof.
  intros Hmove.
  apply moveTask_success_inv in Hmove
    as (title & sc & dc & Ht & Hsc & Hdc & ->).
  exists title, sc, dc. split; [done|]. split.
  { intros t Hown. rewrite (found_title_own e file id t Hown) in Ht.
    by injection Ht as <-. }
  split; [done|]. split; [done|]. split.
  - intros Hne. by rewrite decide_True.
  - intros Heq. by rewrite decide_False by auto.
Qed.

Lemma moveTask_logs_cross_column_only_witness :
  let e := Server.mkEnv "uuid-1" "n" "uuid-2" "later" true true in
  (action <$> history_list
     (Server.moveTask e "task-1" "todo" "done" 0 0 (Server.initialData "n")).2
   = [Server.moved_msg "Welcome to your Kanban Board!" "To Do" "Done"]) ∧
  history_list
    (Server.moveTask e "task-1" "todo" "todo" 0 0 (Server.initialData "n")).2
  = [].
Proof.
  cbv zeta.
  set (e := Server.mkEnv "uuid-1" "n" "uuid-2" "later" true true).
  split.
  - destruct (Server.moveTask e "task-1" "todo" "done" 0 0
                (Server.initialData "n")) as [resp d'] eqn:Hrun.
    assert (resp = Server.RSuccess) as ->.
    { vm_compute in Hrun. by injection Hrun as <- _. }
    destruct (moveTask_logs_cross_column_only _ _ _ _ _ _ _ _ Hrun)
      as (title & sc & dc & Ht & _ & Hsc & Hdc & Hcross & _).
    cbn [snd]. unfold history_list. rewrite Hcross by done.
    vm_compute in Ht, Hsc, Hdc.
    injection Ht as <-. injection Hsc as <-. injection Hdc as <-.
    reflexivity.
  - destruct (Server.moveTask e "task-1" "todo" "todo" 0 0
                (Server.initialData "n")) as [resp d'] eqn:Hrun.
    assert (resp = Server.RSuccess) as ->.
    { vm_compute in Hrun. by injection Hrun as <- _. }
    destruct (moveTask_logs_cross_column_only _ _ _ _ _ _ _ _ Hrun)
      as (title & sc & dc & _ & _ & _ & _ & _ & Hsame).
    cbn [snd]. unfold history_list. by rewrite Hsame.
Defined.

(** ** The history log *)

Lemma take_cons_take {A} n (x : A) l :
  take (S n) (x :: take (S n) l) = take (S n) (x :: l).
Proof. cbn [take]. f_equal. rewrite take_take. f_equal. lia. Qed.

Lemma history_list_addToHistory e d act :
  history_list (Server.addToHistory e d act)
  = take 5 (Server.new_entry e act :: history_list d).
Proof. done. Qed.

(** One request either leaves the history as it is or pushes the entry it
    draws (id and timestamp of this request) and cuts the list to five. *)
Lemma step_history d e r :
  history (Server.step d (e, r)) = history d
  ∨ ∃ act, history (Server.step d (e, r))
           = Some (take 5 (Server.new_entry e act :: history_list d)).
Proof.
  one_step d e r; [by left|try (right; by eexists)..].
  cbv zeta. destruct (decide (src ≠ dst)); [right; by eexists|by left].
Qed.

(** C8: from a document whose history has at most five entries, any sequence
    of requests leaves a history of at most five entries, newest first: it is
    the entries pushed during the run, the latest request's first, followed
    by the old history, cut to five.  Every single request either keeps the
    history or puts its own entry in front and drops what exceeds five. *)
Theorem history_bounded_newest_first d rs :
  length (history_list d) ≤ 5 →
  length (history_list (Server.run d rs)) ≤ 5 ∧
  (∃ logged : list (Server.Env * string),
     sublist (fst <$> logged) (fst <$> rs) ∧
     history_list (Server.run d rs)
     = take 5 (reverse ((λ ea, Server.new_entry ea.1 ea.2) <$> logged)
               ++ history_list d)) ∧
  (∀ d' e r,
     history (Server.step d' (e, r)) = history d'
     ∨ ∃ act, history (Server.step d' (e, r))
              = Some (take 5 (Server.new_entry e act :: history_list d'))).
Proof.
  intros Hlen.
  assert (∃ logged : list (Server.Env * string),
     sublist (fst <$> logged) (fst <$> rs) ∧
     history_list (Server.run d rs)
     = take 5 (reverse ((λ ea, Server.new_entry ea.1 ea.2) <$> logged)
               ++ history_list d)) as Hlog.
  { induction rs as [|[e r] rs IH] using rev_ind.
    - exists []. split; [done|]. cbn. by rewrite take_ge.
    - destruct IH as (logged & Hsub & Hrun). rewrite run_snoc.
      destruct (step_history (Server.run d rs) e r) as [Hsame | [act Hpush]].
      + exists logged. split.
        * rewrite fmap_app. by apply sublist_inserts_r.
        * unfold history_list in *. by rewrite Hsame.
      + exists (logged ++ [(e, act)]). split.
        * rewrite !fmap_app. by apply sublist_app.
        * unfold history_list at 1. rewrite Hpush. cbn [default].
          rewrite Hrun, fmap_app, reverse_app. cbn.
          apply (take_cons_take 4). }
  split; [|split; [done|]].
  - destruct Hlog as (logged & _ & ->). rewrite length_take. lia.
  - intros d' e r. apply step_history.
Qed.

Lemma history_bounded_newest_first_witness :
  let e n := Server.mkEnv "uuid" "now" n n true true in
  let rs :=
    [(e "1", Server.CreateTask (Some "a") None);
     (e "2", Server.UpdateTask "task-1" (Some "b") None);
     (e "3", Server.MoveTask "task-1" "todo" "done" 0 0);
     (e "4", Server.MoveTask "task-1" "done" "done" 0 0);
     (e "5", Server.UpdateTask "task-1" (Some "c") None);
     (e "6", Server.DeleteTask "task-1");
     (e "7", Server.CreateTask (Some "d") None)] in
  length (history_list (Server.run (Server.initialData "now") rs)) ≤ 5.
Proof.
  cbv zeta.
  apply history_bounded_newest_first. vm_compute. lia.
Defined.

Example history_after_seven_requests :
  let e n := Server.mkEnv "uuid" "now" n n true true in
  let rs :=
    [(e "1", Server.CreateTask (Some "a") None);
     (e "2", Server.UpdateTask "task-1" (Some "b") None);
     (e "3", Server.MoveTask "task-1" "todo" "done" 0 0);
     (e "4", Server.MoveTask "task-1" "done" "done" 0 0);
     (e "5", Server.UpdateTask "task-1" (Some "c") None);
     (e "6", Server.DeleteTask "task-1");
     (e "7", Server.CreateTask (Some "d") None)] in
  entry_id <$> history_list (Server.run (Server.initialData "now") rs)
  = ["7"; "6"; "5"; "3"; "2"].
Proof. by vm_compute. Qed.

(** ** Column membership (P1) *)

Lemma splice_start_le len i : Js.splice_start len i ≤ len.
Proof. unfold Js.splice_start. destruct (Z.ltb_spec i 0); lia. Qed.

Lemma splice_insert_perm {A} di (x : A) l : Js.splice di 0 [x] l ≡ₚ x :: l.
Proof.
  unfold Js.splice. rewrite Nat.add_0_r. cbn [app].
  rewrite <- Permutation_middle. by rewrite take_drop.
Qed.

Lemma splice_remove_delete {A} si (l : list A) :
  Js.splice si 1 [] l = delete (Js.splice_start (length l) si) l.
Proof.
  unfold Js.splice. cbn [app]. rewrite Nat.add_1_r.
  symmetry. apply delete_take_drop.
Qed.

Lemma splice_remove_perm {A} si (x : A) l :
  l !! Js.splice_start (length l) si = Some x →
  x :: Js.splice si 1 [] l ≡ₚ l.
Proof.
  intros Hx. rewrite splice_remove_delete. symmetry.
  by apply delete_Permutation.
Qed.

Lemma columns_wf_initial now : Server.columns_wf (Server.initialData now).
Proof.
  assert (∀ c col, columns (Server.initialData now) !! c = Some col →
            col = mkColumn "todo" "To Do" ["task-1"] ∧ c = "todo"
            ∨ taskIds col = []) as Hcols.
  { intros c col. cbn.
    rewrite !lookup_insert, lookup_singleton.
    repeat case_decide; naive_solver. }
  split; [|split].
  - intros c col [[-> _] | ->]%Hcols; cbn; [apply NoDup_singleton|constructor].
  - intros id c1 c2 col1 col2 H1 H2 Hin1 Hin2.
    apply Hcols in H1, H2.
    destruct H1 as [[-> ->] | H1], H2 as [[-> ->] | H2]; try done;
      rewrite ?H1 in Hin1; rewrite ?H2 in Hin2;
      first [by inversion Hin1 | by inversion Hin2].
  - intros c col id [[-> ->] | ->]%Hcols; cbn.
    + intros ->%list_elem_of_singleton. rewrite lookup_singleton_eq. eauto.
    + by intros ?%elem_of_nil.
Qed.

Lemma persist_wf e file data ok failure :
  Server.columns_wf file → Server.columns_wf data →
  Server.columns_wf (Server.persist e file data ok failure).2.
Proof. intros. unfold Server.persist. by destruct (Server.write_ok e). Qed.

Lemma addToHistory_wf e d act :
  Server.columns_wf d → Server.columns_wf (Server.addToHistory e d act).
Proof. done. Qed.

Lemma createTask_wf e title descr d :
  Server.columns_wf d → tasks d !! Server.uuid_task e = None →
  Server.columns_wf (Server.createTask e title descr d).2.
Proof.
  intros Hwf Hfresh. pose proof Hwf as (Hnd & Hone & Hkey).
  unfold Server.createTask.
  destruct title as [t|]; [|done]. destruct (Js.falsy _); [done|].
  destruct (negb _); [done|]. cbn [columns set_tasks].
  destruct (columns d !! "todo") as [todo|] eqn:Htodo; [|done].
  apply persist_wf; [done|]. apply addToHistory_wf.
  set (u := Server.uuid_task e) in *.
  assert (∀ c col, columns d !! c = Some col → u ∉ taskIds col) as Hnew.
  { intros c col Hc Hin. destruct (Hkey c col u Hc Hin) as [? ?]. congruence. }
  split; [|split]; cbn.
  - intros c col. rewrite lookup_insert. case_decide as Hc.
    + intros [= <-]. cbn. apply NoDup_app. split; [by eapply Hnd|].
      split; [|apply NoDup_singleton].
      intros x Hx ->%list_elem_of_singleton. by eapply Hnew.
    + apply Hnd.
  - intros id c1 c2 col1 col2. cbn. rewrite !lookup_insert.
    repeat case_decide; subst; try done.
    + intros [= <-] H2. cbn. rewrite elem_of_app, list_elem_of_singleton.
      intros [H1 | ->] Hin2; [by eapply Hone|]. by destruct (Hnew _ _ H2).
    + intros H1 [= <-] Hin1. cbn. rewrite elem_of_app, list_elem_of_singleton.
      intros [H2 | ->]; [by eapply Hone|]. by destruct (Hnew _ _ H1).
    + apply Hone.
  - intros c col id. rewrite lookup_insert. case_decide as Hc.
    + intros [= <-]. cbn. rewrite elem_of_app, list_elem_of_singleton.
      intros [Hin | ->]; [|rewrite lookup_insert_eq; eauto].
      rewrite lookup_insert. case_decide; [eauto|]. by eapply Hkey.
    + intros Hcol Hin. rewrite lookup_insert. case_decide; [eauto|].
      by eapply Hkey.
Qed.

Lemma updateTask_wf e id title descr d :
  Server.columns_wf d → Server.columns_wf (Server.updateTask e id title descr d).2.
Proof.
  intros Hwf. pose proof Hwf as (Hnd & Hone & Hkey).
  unfold Server.updateTask. destruct (negb _); [done|].
  destruct (tasks d !! id) as [t|] eqn:Ht.
  - apply persist_wf; [done|]. apply addToHistory_wf.
    split; [done|split; [done|]]. cbn.
    intros c col x Hc Hx. rewrite lookup_insert. case_decide; [eauto|].
    by eapply Hkey.
  - destruct (Server.inherited e id); [|done].
    apply persist_wf; [done|]. by apply addToHistory_wf.
Qed.

Lemma deleteTask_wf e id d :
  Server.columns_wf d → Server.columns_wf (Server.deleteTask e id d).2.
Proof.
  intros Hwf. pose proof Hwf as (Hnd & Hone & Hkey).
  unfold Server.deleteTask. destruct (negb _); [done|].
  destruct (Server.found_title e d id) as [t|] eqn:Ht; [|done].
  apply persist_wf; [done|]. apply addToHistory_wf.
  assert (∀ c col',
    ((λ c0, set_taskIds (filter (λ taskId, taskId ≠ id) (taskIds c0)) c0)
       <$> columns d) !! c = Some col' →
    ∃ col, columns d !! c = Some col
           ∧ taskIds col' = filter (λ taskId, taskId ≠ id) (taskIds col))
    as Hcols.
  { intros c col'. rewrite lookup_fmap.
    destruct (columns d !! c) as [col|]; [|done]. intros [= <-]. eauto. }
  split; [|split]; cbn.
  - intros c col' (col & Hc & ->)%Hcols. apply NoDup_filter. by eapply Hnd.
  - intros x c1 c2 col1 col2 (c1' & H1 & ->)%Hcols (c2' & H2 & ->)%Hcols.
    intros [_ Hx1]%list_elem_of_filter [_ Hx2]%list_elem_of_filter.
    by eapply Hone.
  - intros c col' x (col & Hc & ->)%Hcols [Hne Hx]%list_elem_of_filter.
    rewrite lookup_delete_ne by done. by eapply Hkey.
Qed.

Lemma columns_wf_permuted d c col l' :
  Server.columns_wf d → columns d !! c = Some col → l' ≡ₚ taskIds col →
  Server.columns_wf (set_columns (<[c := set_taskIds l' col]> (columns d)) d).
Proof.
  intros (Hnd & Hone & Hkey) Hc Hperm.
  assert (∀ c' col', <[c := set_taskIds l' col]> (columns d) !! c' = Some col' →
            ∃ old, columns d !! c' = Some old ∧ taskIds col' ≡ₚ taskIds old)
    as Hcols.
  { intros c' col'. rewrite lookup_insert. case_decide as Hcc; [|by eauto].
    subst c'. intros [= <-]. eauto. }
  split; [|split]; cbn.
  - intros c' col' (old & Hold & ->)%Hcols. by eapply Hnd.
  - intros x c1 c2 col1 col2 (o1 & H1 & ->)%Hcols (o2 & H2 & ->)%Hcols.
    by eapply Hone.
  - intros c' col' x (old & Hold & ->)%Hcols. by eapply Hkey.
Qed.

Lemma moveTask_wf e id src dst si di d :
  Server.columns_wf d →
  Server.addresses_task d e (Server.MoveTask id src dst si di) = true →
  Server.columns_wf (Server.moveTask e id src dst si di d).2.
Proof.
  intros Hwf Haddr. pose proof Hwf as (Hnd & Hone & Hkey).
  unfold Server.moveTask. destruct (negb _); [done|].
  cbn [Server.addresses_task] in Haddr.
  destruct (Server.found_title e d id) as [t|] eqn:Ht; [|done].
  destruct (columns d !! src) as [sc|] eqn:Hsrc; [|by destruct (_ && _)].
  destruct (columns d !! dst) as [dc|] eqn:Hdst; [|by destruct (_ && _)].
  apply persist_wf; [done|].
  apply bool_decide_eq_true in Haddr.
  pose proof (splice_remove_perm si id (taskIds sc) Haddr) as Hrem.
  destruct (decide (src = dst)) as [<-|Hne].
  - rewrite decide_False by auto. rewrite insert_insert_eq.
    apply (columns_wf_permuted d src sc); [done..|].
    cbn. by rewrite splice_insert_perm.
  - rewrite decide_True by done. apply addToHistory_wf.
    set (R := Js.splice si 1 [] (taskIds sc)) in *.
    set (I := Js.splice di 0 [id] (taskIds dc)).
    assert (I ≡ₚ id :: taskIds dc) as Hins by apply splice_insert_perm.
    pose proof (Hnd _ _ Hsrc) as Hnd_src. rewrite <- Hrem in Hnd_src.
    apply NoDup_cons in Hnd_src as [Hid_R Hnd_R].
    assert (id ∈ taskIds sc) as Hid_src by (rewrite <- Hrem; left).
    assert (id ∉ taskIds dc) as Hid_dst.
    { intros Hin. by apply Hne, (Hone id src dst sc dc). }
    assert (∀ c col' x,
      <[dst := set_taskIds I dc]> (<[src := set_taskIds R sc]> (columns d))
        !! c = Some col' → x ∈ taskIds col' →
      (c = dst ∧ x = id)
      ∨ ∃ col, columns d !! c = Some col ∧ x ∈ taskIds col
               ∧ ¬ (c = src ∧ x = id)) as Hmem.
    { intros c col' x. rewrite !lookup_insert.
      case_decide as Hcd; [|case_decide as Hcs].
      - subst c. intros [= <-]. cbn. rewrite Hins, elem_of_cons.
        intros [-> | Hx]; [by left|]. right. exists dc.
        split; [done|]. split; [done|]. intros [? _]. by apply Hne.
      - subst c. intros [= <-]. cbn. intros Hx. right. exists sc.
        split; [done|]. split; [rewrite <- Hrem; by right|].
        intros [_ ->]. done.
      - intros Hc Hx. right. exists col'. split; [done|]. split; [done|].
        intros [? _]. by apply Hcs. }
    split; [|split]; cbn.
    + intros c col'. rewrite !lookup_insert.
      case_decide as Hcd; [|case_decide as Hcs].
      * intros [= <-]. cbn. rewrite Hins. apply NoDup_cons. split; [done|].
        by eapply Hnd.
      * by intros [= <-].
      * apply Hnd.
    + intros x c1 c2 col1 col2 H1 H2 Hx1 Hx2.
      destruct (Hmem _ _ _ H1 Hx1) as [[-> ->] | (o1 & Ho1 & Hin1 & Hn1)],
               (Hmem _ _ _ H2 Hx2) as [[-> Hx] | (o2 & Ho2 & Hin2 & Hn2)];
        try done.
      * exfalso. apply Hn2. split; [|done]. by apply (Hone id c2 src o2 sc).
      * subst x. exfalso. apply Hn1. split; [|done].
        by apply (Hone id c1 src o1 sc).
      * by apply (Hone x c1 c2 o1 o2).
    + intros c col' x Hc Hx.
      destruct (Hmem _ _ _ Hc Hx) as [[-> ->] | (o & Ho & Hin & _)];
        [by apply (Hkey src sc)|by apply (Hkey c o)].
Qed.

Lemma step_wf d e r :
  Server.columns_wf d →
  Server.addresses_task d e r = true → Server.fresh_uuid d e r = true →
  Server.columns_wf (Server.step d (e, r)).
Proof.
  intros Hwf Haddr Hfresh. unfold Server.step. cbn [fst snd].
  destruct r as [title descr|id title descr|id|id src dst si di];
    cbn [Server.handle].
  - apply createTask_wf; [done|]. cbn in Hfresh. by apply bool_decide_eq_true in Hfresh.
  - by apply updateTask_wf.
  - by apply deleteTask_wf.
  - by apply moveTask_wf.
Qed.

Lemma run_wf d rs :
  Server.columns_wf d → Server.admissible d rs = true →
  Server.columns_wf (Server.run d rs).
Proof.
  revert d. induction rs as [|[e r] rs IH]; intros d Hwf Hadm; [done|].
  cbn in Hadm. apply andb_true_iff in Hadm as [[Haddr Hfresh]%andb_true_iff Hadm].
  cbn. apply IH; [by apply step_wf|done].
Qed.

(** C1 as stated fails: move requests are not checked against the column
    contents.  A move of task-1 from todo to done with source index 5 removes
    nothing from todo and still inserts the id into done. *)
Lemma move_out_of_range_duplicates_task :
  let e := Server.mkEnv "uuid-1" "n" "uuid-2" "n" true true in
  let d := Server.run (Server.initialData "n")
             [(e, Server.MoveTask "task-1" "todo" "done" 5 0)] in
  Server.reachable d ∧
  taskIds <$> columns d !! "todo" = Some ["task-1"] ∧
  taskIds <$> columns d !! "done" = Some ["task-1"] ∧
  ¬ Server.at_most_one_column d.
Proof.
  cbv zeta. split; [by eexists _, _|].
  split; [by vm_compute|]. split; [by vm_compute|].
  intros Hone.
  assert ("todo" = "done") as Habs; [|discriminate Habs].
  eapply (Hone "task-1" "todo" "done"); [by vm_compute..| |]; cbn; left.
Qed.

(** C1, amended: in every state reached from the seed by requests in which
    each move addresses its task (the element removed from the source column
    is the moved id) and each uuid drawn for a new task is not an existing
    task id, every task id is listed by at most one column, and at most once
    there. *)
Theorem membership_of_addressed_runs now rs :
  Server.admissible (Server.initialData now) rs = true →
  Server.at_most_one_column (Server.run (Server.initialData now) rs) ∧
  ∀ c col, columns (Server.run (Server.initialData now) rs) !! c = Some col →
           NoDup (taskIds col).
Proof.
  intros Hadm.
  destruct (run_wf (Server.initialData now) rs (columns_wf_initial now) Hadm)
    as (Hnd & Hone & _).
  by split.
Qed.

Lemma membership_of_addressed_runs_witness :
  let e u := Server.mkEnv u "n" "uuid-h" "n" true true in
  let rs :=
    [(e "a", Server.CreateTask (Some "Buy milk") None);
     (e "-", Server.MoveTask "a" "todo" "done" 1 0);
     (e "b", Server.CreateTask (Some "Call home") (Some "today"));
     (e "-", Server.MoveTask "b" "todo" "todo" (-1) 0);
     (e "-", Server.MoveTask "task-1" "todo" "inprogress" 1 7);
     (e "-", Server.MoveTask "ghost" "todo" "done" 0 0);
     (e "-", Server.DeleteTask "a");
     (e "-", Server.UpdateTask "b" None (Some ""))] in
  Server.admissible (Server.initialData "n") rs = true ∧
  Server.at_most_one_column (Server.run (Server.initialData "n") rs).
Proof.
  cbv zeta. split; [by vm_compute|].
  apply membership_of_addressed_runs. by vm_compute.
Defined.

(** ** The optimistic update allocates what it changes *)

Section heap_steps.
Import Heap.

Lemma bind_inv {A B} (m : M A) (k : A → M B) h r h' :
  bind m k h = (r, h') →
  (∃ a h1, m h = (Some a, h1) ∧ k a h1 = (r, h'))
  ∨ (m h = (None, h') ∧ r = None).
Proof.
  unfold bind. destruct (m h) as [[a|] h1]; [by eauto|].
  intros [= <- <-]. by right.
Qed.

Lemma get_inv o key h r h' : get o key h = (r, h') → h' = h.
Proof.
  unfold get. destruct o as [[s|l]|]; try by intros [= _ <-].
  destruct (h !! l) as [[props|items]|]; by intros [= _ <-].
Qed.

Lemma spread_object_inv o h r h' :
  spread_object o h = (r, h') →
  (r = None ∧ h' = h)
  ∨ (∃ props, r = Some (length h) ∧ h' = h ++ [CObject props]).
Proof.
  unfold spread_object, alloc. destruct o as [[s|l]|].
  - intros [= <- <-]. by left.
  - destruct (h !! l) as [[props|items]|]; intros [= <- <-]; eauto.
  - intros [= <- <-]. eauto.
Qed.

Lemma spread_array_inv o h r h' :
  spread_array o h = (r, h') →
  (r = None ∧ h' = h)
  ∨ (∃ items, r = Some (length h) ∧ h' = h ++ [CArray items]).
Proof.
  unfold spread_array, alloc. destruct o as [[s|l]|]; try by (intros [= <- <-]; left).
  destruct (h !! l) as [[props|items]|]; intros [= <- <-]; eauto.
Qed.

Lemma set_prop_inv l key v h r h' :
  set_prop l key v h = (r, h') →
  (r = None ∧ h' = h)
  ∨ (∃ props, r = Some () ∧ h !! l = Some (CObject props)
              ∧ h' = <[l := CObject (<[key := v]> props)]> h).
Proof.
  unfold set_prop. destruct (h !! l) as [[props|items]|]; intros [= <- <-]; eauto.
Qed.

Lemma splice_inv a start n items h r h' :
  splice a start n items h = (r, h') →
  (r = None ∧ h' = h)
  ∨ (∃ l old, a = Some (VRef l) ∧ r = Some () ∧ h !! l = Some (CArray old)
              ∧ h' = <[l := CArray (Js.splice start n items old)]> h).
Proof.
  unfold splice. destruct a as [[s|l]|]; try by (intros [= <- <-]; left).
  destruct (h !! l) as [[props|old]|] eqn:Hl; intros [= <- <-];
    [by left| |by left].
  right. by exists l, old.
Qed.

(** Reading back the property just assigned. *)
Lemma get_after_set l key v props h r h' :
  h !! l = Some (CObject props) →
  get (Some (VRef l)) key (<[l := CObject (<[key := v]> props)]> h) = (r, h') →
  r = Some (Some v).
Proof.
  intros Hl. unfold get.
  rewrite list_lookup_insert_eq by (by eapply lookup_lt_Some).
  rewrite lookup_insert_eq. by intros [= <- _].
Qed.

Lemma prefix_alloc (h0 h : heap) c : h0 `prefix_of` h → h0 `prefix_of` h ++ [c].
Proof. intros. by apply prefix_app_r. Qed.

Lemma prefix_insert (h0 h : heap) l c :
  h0 `prefix_of` h → length h0 ≤ l → h0 `prefix_of` <[l := c]> h.
Proof.
  intros [k ->] Hl. rewrite insert_app_r_alt by done. by eexists.
Qed.

End heap_steps.
Section heap_run.
Import Heap.
Context (h : heap).

Lemma grown_alloc hk c : grown h hk → grown h (hk ++ [c]).
Proof.
  intros [Hp Hl]. split; [by apply prefix_alloc|]. rewrite length_app. lia.
Qed.

Lemma grown_insert hk l c : grown h hk → length h < l → grown h (<[l := c]> hk).
Proof.
  intros [Hp Hl] Hlt. split; [apply prefix_insert; [done|lia]|].
  by rewrite length_insert.
Qed.

Lemma step_get {B} o key (k : option Value → M B) hk r h' :
  bind (get o key) k hk = (r, h') → grown h hk →
  (r = None ∧ grown h h') ∨ (∃ v, k v hk = (r, h')).
Proof.
  intros [(v & h1 & E & Hk) | [E ->]]%bind_inv Hg;
    apply get_inv in E as ->; eauto.
Qed.

Lemma step_spread_object {B} o (k : loc → M B) hk r h' :
  bind (spread_object o) k hk = (r, h') → grown h hk →
  (r = None ∧ grown h h')
  ∨ (∃ l hk', length h < l ∧ grown h hk' ∧ k l hk' = (r, h')).
Proof.
  intros [(l & h1 & E & Hk) | [E ->]]%bind_inv Hg;
    apply spread_object_inv in E as [[[=] ->] | (p & [=] & ->)]; [|by left].
  subst l. right. exists (length hk), (hk ++ [CObject p]).
  split; [apply Hg|]. split; [by apply grown_alloc|done].
Qed.

Lemma step_spread_array {B} o (k : loc → M B) hk r h' :
  bind (spread_array o) k hk = (r, h') → grown h hk →
  (r = None ∧ grown h h')
  ∨ (∃ l hk', length h < l ∧ grown h hk' ∧ k l hk' = (r, h')).
Proof.
  intros [(l & h1 & E & Hk) | [E ->]]%bind_inv Hg;
    apply spread_array_inv in E as [[[=] ->] | (p & [=] & ->)]; [|by left].
  subst l. right. exists (length hk), (hk ++ [CArray p]).
  split; [apply Hg|]. split; [by apply grown_alloc|done].
Qed.

(** [o.key = v] followed by reading [o.key]. *)
Lemma step_set_get {B} l key v (k : option Value → M B) hk r h' :
  bind (set_prop l key v) (λ _, bind (get (Some (VRef l)) key) k) hk
    = (r, h') →
  grown h hk → length h < l →
  (r = None ∧ grown h h')
  ∨ (∃ hk', grown h hk' ∧ k (Some v) hk' = (r, h')).
Proof.
  intros [([] & h1 & E & Hk) | [E ->]]%bind_inv Hg Hl;
    apply set_prop_inv in E as [[[=] ->] | (p & [=] & Hp & ->)]; [|by left].
  apply bind_inv in Hk as [(v' & h2 & E & Hk) | [E ->]].
  - pose proof (get_inv _ _ _ _ _ E) as ->.
    apply (get_after_set _ _ _ _ _ _ _ Hp) in E as [= ->].
    right. eexists. split; [|done]. by apply grown_insert.
  - apply get_inv in E as ->. left. split; [done|]. by apply grown_insert.
Qed.

Lemma step_splice {B} l start n items (k : unit → M B) hk r h' :
  bind (splice (Some (VRef l)) start n items) k hk = (r, h') →
  grown h hk → length h < l →
  (r = None ∧ grown h h') ∨ (∃ hk', grown h hk' ∧ k () hk' = (r, h')).
Proof.
  intros [([] & h1 & E & Hk) | [E ->]]%bind_inv Hg Hl;
    apply splice_inv in E as [[[=] ->] | (l' & old & [= <-] & [=] & Ho & ->)];
    [|by left].
  right. eexists. split; [|done]. by apply grown_insert.
Qed.

Lemma bind_ret {A B} (a : A) (k : A → M B) hk : bind (ret a) k hk = k a hk.
Proof. done. Qed.

Lemma bind_assoc {A B C} (m : M A) (f : A → M B) (g : B → M C) hk :
  bind (bind m f) g hk = bind m (λ x, bind (f x) g) hk.
Proof. unfold bind. by destruct (m hk) as [[a|] h1]. Qed.

Lemma grown_prefix hk : grown h hk → h `prefix_of` hk.
Proof. by intros [? _]. Qed.

Local Ltac thrown := split; [by apply grown_prefix | by intros ? [=]].

Lemma optimistic_trace taskId src dst si di currentData r h' :
  optimistic taskId src dst si di currentData h = (r, h') →
  h `prefix_of` h' ∧
  ∀ newData, r = Some newData →
    ∃ newCols sourceColumn destColumn props cols,
      newData = length h ∧ length h < sourceColumn ∧
      length h < destColumn ∧ length h < newCols ∧
      h' !! newData = Some (CObject (<["columns" := VRef newCols]> props)) ∧
      h' !! newCols
        = Some (CObject (<[dst := VRef destColumn]>
                           (<[src := VRef sourceColumn]> cols))) ∧
      (src = dst → destColumn = sourceColumn).
Proof.
  unfold optimistic. intros Hrun.
  (* newData *)
  apply bind_inv in Hrun as [(newData & h1 & E & Hrun) | [E ->]];
    apply spread_object_inv in E as [[[=] ->] | (p0 & [=] & ->)];
    [|by split]; subst newData.
  assert (grown h (h ++ [CObject p0])) as Hg.
  { split; [by apply prefix_app_r|]. rewrite length_app. cbn. lia. }
  revert Hrun Hg. generalize (h ++ [CObject p0]). intros h1 Hrun Hg.
  eapply step_get in Hrun as [[-> Hg'] | [cols Hrun]]; [by thrown| |done].
  eapply step_get in Hrun as [[-> Hg'] | [src0 Hrun]]; [by thrown| |done].
  eapply step_spread_object in Hrun
    as [[-> Hg'] | (sourceColumn & h2 & Hsrc & Hg2 & Hrun)];
    [by thrown| |done].
  clear h1 Hg.
  (* destColumn *)
  assert (∃ destColumn h3, length h < destColumn ∧ grown h h3 ∧
            (src = dst → destColumn = sourceColumn) ∧
            ((r = None ∧ grown h h') ∨
    (let* ids := get (Some (VRef sourceColumn)) "taskIds" in
     let* ids' := spread_array ids in
     let* _ := set_prop sourceColumn "taskIds" (VRef ids') in
     let* ids := get (Some (VRef sourceColumn)) "taskIds" in
     let* _ := splice ids si 1 [] in
     let* ids := get (Some (VRef destColumn)) "taskIds" in
     let* ids' := spread_array ids in
     let* _ := set_prop destColumn "taskIds" (VRef ids') in
     let* ids := get (Some (VRef destColumn)) "taskIds" in
     let* _ := splice ids di 0 [VString taskId] in
     let* cols := get (Some (VRef (length h))) "columns" in
     let* newCols := spread_object cols in
     let* _ := set_prop newCols src (VRef sourceColumn) in
     let* _ := set_prop newCols dst (VRef destColumn) in
     let* _ := set_prop (length h) "columns" (VRef newCols) in
     ret (length h)) h3 = (r, h')))
    as (destColumn & h3 & Hdst & Hg3 & Hsame & Hrun').
  { destruct (decide (src = dst)) as [Heq|Hne].
    - exists sourceColumn, h2. repeat split; try done; try apply Hg2.
      by right.
    - rewrite bind_assoc in Hrun.
      eapply step_get in Hrun as [[-> Hg'] | [dst0 Hrun]]; [|..|done].
      { exists sourceColumn, h2. repeat split; try done; try apply Hg2.
        by left. }
      eapply step_spread_object in Hrun
        as [[-> Hg'] | (destColumn & h3 & Hdst & Hg3 & Hrun)]; [|..|done].
      { exists sourceColumn, h2. repeat split; try done; try apply Hg2.
        by left. }
      exists destColumn, h3. repeat split; try done; try apply Hg3.
      by right. }
  clear Hrun h2 Hg2. destruct Hrun' as [[-> Hg'] | Hrun]; [by thrown|].
  (* Remove from source *)
  eapply step_get in Hrun as [[-> Hg'] | [ids Hrun]]; [by thrown| |done].
  eapply step_spread_array in Hrun
    as [[-> Hg'] | (ids' & h4 & Hids & Hg4 & Hrun)]; [by thrown| |done].
  eapply step_set_get in Hrun as [[-> Hg'] | (h5 & Hg5 & Hrun)];
    [by thrown| |done..].
  eapply step_splice in Hrun as [[-> Hg'] | (h6 & Hg6 & Hrun)];
    [by thrown| |done..].
  clear h3 Hg3 h4 Hg4 h5 Hg5 ids ids' Hids.
  (* Add to destination *)
  eapply step_get in Hrun as [[-> Hg'] | [ids Hrun]]; [by thrown| |done].
  eapply step_spread_array in Hrun
    as [[-> Hg'] | (ids' & h7 & Hids & Hg7 & Hrun)]; [by thrown| |done].
  eapply step_set_get in Hrun as [[-> Hg'] | (h8 & Hg8 & Hrun)];
    [by thrown| |done..].
  eapply step_splice in Hrun as [[-> Hg'] | (h9 & Hg9 & Hrun)];
    [by thrown| |done..].
  clear h6 Hg6 h7 Hg7 h8 Hg8 ids ids' Hids.
  (* Update columns *)
  eapply step_get in Hrun as [[-> Hg'] | [cols' Hrun]]; [by thrown| |done].
  eapply step_spread_object in Hrun
    as [[-> Hg'] | (newCols & h10 & Hnew & Hg10 & Hrun)]; [by thrown| |done].
  apply bind_inv in Hrun as [([] & ha & E & Hrun) | [E ->]];
    apply set_prop_inv in E as [[[=] ->] | (pc & [=] & Hpc & ->)];
    [|by thrown].
  apply bind_inv in Hrun as [([] & hb & E & Hrun) | [E ->]];
    apply set_prop_inv in E as [[[=] ->] | (pc' & [=] & Hpc' & ->)];
    [|split; [by apply grown_prefix, grown_insert|by intros ? [=]]].
  apply bind_inv in Hrun as [([] & hc & E & Hrun) | [E ->]];
    apply set_prop_inv in E as [[[=] ->] | (pd & [=] & Hpd & ->)];
    [|split; [by apply grown_prefix, grown_insert; [apply grown_insert|]
             |by intros ? [=]]].
  injection Hrun as <- <-.
  pose proof (lookup_lt_Some _ _ _ Hpc) as Hlt.
  rewrite list_lookup_insert_eq in Hpc' by done. injection Hpc' as <-.
  split.
  { apply prefix_insert; [|done].
    by apply grown_prefix, grown_insert; [apply grown_insert|]. }
  intros newData [= <-].
  exists newCols, sourceColumn, destColumn, pd, pc.
  repeat split; try done.
  - apply list_lookup_insert_eq. by eapply lookup_lt_Some.
  - rewrite list_lookup_insert_ne by lia.
    apply list_lookup_insert_eq. by rewrite length_insert.
Qed.

End heap_run.

(** C5: the optimistic update only allocates and writes to what it has
    allocated.  Whatever it returns (or throws), the heap afterwards is the
    heap before followed by new cells, so every object reachable from the
    previously held boardData (its columns mapping, its column objects, their
    taskIds arrays) has the contents it had.  On success the object handed to
    [set], its columns mapping and the column objects stored under the source
    and destination ids are objects that did not exist before, hence not
    reference-equal to any input object. *)
Theorem optimistic_move_copies_columns
    taskId src dst si di currentData h r h' :
  Heap.optimistic taskId src dst si di currentData h = (r, h') →
  (∃ added, h' = h ++ added) ∧
  ∀ newData, r = Some newData →
    h !! newData = None ∧
    (∃ newCols, Heap.columns_of h' newData = Some (Heap.VRef newCols)
                ∧ h !! newCols = None) ∧
    ∀ c, c = src ∨ c = dst →
      ∃ l, Heap.column_of h' newData c = Some (Heap.VRef l) ∧
           h !! l = None ∧
           ∀ old, Heap.column_of h currentData c = Some (Heap.VRef old) →
                  is_Some (h !! old) → l ≠ old.
Proof.
  intros Hrun. apply optimistic_trace in Hrun as [Hpre Hnew].
  split; [done|]. intros newData ->.
  destruct (Hnew _ eq_refl)
    as (newCols & sourceColumn & destColumn & props & cols & -> & Hsrc & Hdst
        & Hcols & HnewData & HnewCols & Hsame).
  assert (Heap.columns_of h' (length h) = Some (Heap.VRef newCols)) as Hcolumns.
  { unfold Heap.columns_of, Heap.get. rewrite HnewData.
    by rewrite lookup_insert_eq. }
  split; [by apply lookup_ge_None|].
  split; [exists newCols; split; [done|apply lookup_ge_None; lia]|].
  intros c Hc.
  assert (∃ l, Heap.column_of h' (length h) c = Some (Heap.VRef l)
               ∧ length h < l) as (l & Hl & Hlt).
  { unfold Heap.column_of, Heap.bind, Heap.get.
    rewrite HnewData. cbn beta iota. rewrite lookup_insert_eq.
    cbn beta iota. rewrite HnewCols. cbn beta iota.
    destruct (decide (c = dst)) as [->|Hne].
    - exists destColumn. by rewrite lookup_insert_eq.
    - destruct Hc as [-> | ->]; [|done].
      exists sourceColumn. rewrite lookup_insert_ne by done.
      by rewrite lookup_insert_eq. }
  exists l. split; [done|]. split; [apply lookup_ge_None; lia|].
  intros old _ Hold%lookup_lt_is_Some. lia.
Qed.

Lemma optimistic_move_copies_columns_witness :
  let h :=
    [Heap.CObject {[ "columns" := Heap.VRef 1 ]};
     Heap.CObject
       (<["column-1" := Heap.VRef 2]> {[ "column-2" := Heap.VRef 4 ]});
     Heap.CObject
       (<["id" := Heap.VString "column-1"]> {[ "taskIds" := Heap.VRef 3 ]});
     Heap.CArray [Heap.VString "task-1"];
     Heap.CObject
       (<["id" := Heap.VString "column-2"]> {[ "taskIds" := Heap.VRef 5 ]});
     Heap.CArray [Heap.VString "task-2"]] in
  ∃ added,
    (Heap.optimistic "task-1" "column-1" "column-2" 0 0 0 h).2 = h ++ added.
Proof.
  cbv zeta.
  match goal with |- ∃ added, (?m ?h).2 = _ =>
    destruct (m h) as [r h'] eqn:Hrun end.
  exact (proj1 (optimistic_move_copies_columns _ _ _ _ _ _ _ _ _ Hrun)).
Defined.

(** The check of the store test [creates deep copies of columns to avoid
    mutation]: after moving task-1 from column-1 to the front of column-2,
    the arrays held before still read [task-1] and [task-2], the new board
    reads [] and [task-1, task-2], and the new arrays are other objects. *)
Example optimistic_move_deep_copies :
  let h :=
    [Heap.CObject {[ "columns" := Heap.VRef 1 ]};
     Heap.CObject
       (<["column-1" := Heap.VRef 2]> {[ "column-2" := Heap.VRef 4 ]});
     Heap.CObject
       (<["id" := Heap.VString "column-1"]> {[ "taskIds" := Heap.VRef 3 ]});
     Heap.CArray [Heap.VString "task-1"];
     Heap.CObject
       (<["id" := Heap.VString "column-2"]> {[ "taskIds" := Heap.VRef 5 ]});
     Heap.CArray [Heap.VString "task-2"]] in
  let run := Heap.optimistic "task-1" "column-1" "column-2" 0 0 0 h in
  let ids h board c := Heap.taskIds_of h (Heap.column_of h board c) in
  ∃ newData,
    run.1 = Some newData ∧
    Heap.items_of run.2 (Some (Heap.VRef 3)) = Some [Heap.VString "task-1"] ∧
    Heap.items_of run.2 (Some (Heap.VRef 5)) = Some [Heap.VString "task-2"] ∧
    Heap.items_of run.2 (ids run.2 newData "column-1") = Some [] ∧
    Heap.items_of run.2 (ids run.2 newData "column-2")
      = Some [Heap.VString "task-1"; Heap.VString "task-2"] ∧
    ids run.2 0 "column-1" = Some (Heap.VRef 3) ∧
    ids run.2 0 "column-2" = Some (Heap.VRef 5) ∧
    ids run.2 newData "column-1" = Some (Heap.VRef 9) ∧
    ids run.2 newData "column-2" = Some (Heap.VRef 10).
Proof. cbv zeta. eexists. by vm_compute. Qed.

(** ** The optimistic update on the heap computes the update on values *)

Section heap_refinement.
Import Heap.
Lemma bind_step {A B} (m : M A) (k : A → M B) h a h1 :
  m h = (Some a, h1) → bind m k h = k a h1.
Proof. unfold bind. by intros ->. Qed.

Lemma bind_throw {A B} (m : M A) (k : A → M B) h h1 :
  m h = (None, h1) → bind m k h = (None, h1).
Proof. unfold bind. by intros ->. Qed.

Lemma get_object l key h props :
  h !! l = Some (CObject props) →
  get (Some (VRef l)) key h = (Some (props !! key), h).
Proof. unfold get. by intros ->. Qed.

Lemma spread_object_object l h props :
  h !! l = Some (CObject props) →
  spread_object (Some (VRef l)) h = (Some (length h), h ++ [CObject props]).
Proof. unfold spread_object. by intros ->. Qed.

Lemma spread_array_array l h items :
  h !! l = Some (CArray items) →
  spread_array (Some (VRef l)) h = (Some (length h), h ++ [CArray items]).
Proof. unfold spread_array. by intros ->. Qed.

Lemma set_prop_object l key v h props :
  h !! l = Some (CObject props) →
  set_prop l key v h = (Some (), <[l := CObject (<[key := v]> props)]> h).
Proof. unfold set_prop. by intros ->. Qed.

Lemma splice_array l start n items h old :
  h !! l = Some (CArray old) →
  splice (Some (VRef l)) start n items h
  = (Some (), <[l := CArray (Js.splice start n items old)]> h).
Proof. unfold splice. by intros ->. Qed.

(** Locations of the cells allocated after [h]. *)
Lemma lookup_new (h L : heap) k : (h ++ L) !! (length h + k) = L !! k.
Proof. rewrite lookup_app_r by lia. f_equal. lia. Qed.

Lemma splice_fmap {A B} (f : A → B) start n new l :
  Js.splice start n (f <$> new) (f <$> l) = f <$> Js.splice start n new l.
Proof.
  unfold Js.splice. rewrite length_fmap, !fmap_app, fmap_take, fmap_drop.
  done.
Qed.

Lemma holds_column_ext h L v col :
  holds_column h v col → holds_column (h ++ L) v col.
Proof.
  intros (l & props & a & -> & Hl & Hid & Htitle & Hids & Ha).
  exists l, props, a. repeat split; try done; by apply lookup_app_l_Some.
Qed.

Lemma list_insert_here {A} (c x : A) L : <[0 := c]> (x :: L) = c :: L.
Proof. done. Qed.

Lemma list_insert_later {A} (c x : A) L k :
  <[S k := c]> (x :: L) = x :: <[k := c]> L.
Proof. done. Qed.

Lemma spread_object_undefined h :
  spread_object None h = (Some (length h), h ++ [CObject ∅]).
Proof. done. Qed.

Lemma spread_array_undefined h : spread_array None h = (None, h).
Proof. done. Qed.

(** The columns mapping written by the update holds the columns of the
    value-level update, given that the two new column objects do. *)
Lemma holds_updated_columns h L (p : gmap string Value)
    (cols : gmap string Column) src dst
    sourceColumn destColumn sc' dc' :
  (∀ c, option_Forall2 (holds_column h) (p !! c) (cols !! c)) →
  holds_column (h ++ L) (VRef destColumn) dc' →
  (src ≠ dst → holds_column (h ++ L) (VRef sourceColumn) sc') →
  ∀ c, option_Forall2 (holds_column (h ++ L))
         (<[dst := VRef destColumn]> (<[src := VRef sourceColumn]> p) !! c)
         (<[dst := dc']> (<[src := sc']> cols) !! c).
Proof.
  intros Hrep Hdst Hsrc c. rewrite !lookup_insert.
  destruct (decide (dst = c)) as [->|Hdc]; [by constructor|].
  destruct (decide (src = c)) as [->|Hsc]; [constructor; by apply Hsrc|].
  destruct (Hrep c); constructor. by apply holds_column_ext.
Qed.

Local Ltac look :=
  first [ rewrite lookup_new; reflexivity
        | apply lookup_app_l_Some; eassumption ].

Local Ltac norm :=
  rewrite ?length_app, <- ?app_assoc, ?insert_app_r;
  cbn [length app];
  rewrite ?list_insert_later, ?list_insert_here.

Local Ltac step lem :=
  erewrite bind_step; [|first [eapply lem; look | apply lem]]; norm.

Local Ltac thrown lem :=
  erewrite bind_throw; [by eexists | apply lem].

Local Ltac new_column :=
  eexists _, _, _; split; [reflexivity|]; split; [look|];
  rewrite ?lookup_insert_ne by done; rewrite ?lookup_insert_eq;
  repeat split; try done;
  cbn [taskIds set_taskIds]; rewrite <- ?splice_fmap; look.

Lemma optimistic_refines_aux taskId src dst si di currentData h d :
  holds_columns h currentData (columns d) →
  match Client.optimistic taskId src dst si di d with
  | Some d' =>
    ∃ newData h',
      optimistic taskId src dst si di currentData (h ++ [])
        = (Some newData, h') ∧
      holds_columns h' newData (columns d')
  | None =>
    ∃ h', optimistic taskId src dst si di currentData (h ++ []) = (None, h')
  end.
Proof.
  intros (pB & lc & p & Hb & Hcols & Hlc & Hrep).
  unfold Client.optimistic, optimistic.
  step spread_object_object.
  step get_object. rewrite Hcols.
  step get_object.
  pose proof (Hrep src) as Hs.
  destruct (columns d !! src) as [sc|] eqn:Hsc;
    inversion Hs as [v ? Hv Hpv|Hpn]; subst.
  - destruct Hv as (ls & ps & la & -> & Hls & Hid & Htitle & Hids & Hla).
    step spread_object_object.
    destruct (decide (src = dst)) as [<-|Hne].
    + (* within one column: destColumn is sourceColumn *)
      rewrite bind_ret.
      step get_object. rewrite Hids.
      step spread_array_array.
      step set_prop_object.
      step get_object. rewrite lookup_insert_eq.
      step splice_array.
      step get_object. rewrite lookup_insert_eq.
      step spread_array_array.
      step set_prop_object.
      step get_object. rewrite lookup_insert_eq.
      step splice_array.
      step get_object. rewrite Hcols.
      step spread_object_object.
      step set_prop_object.
      step set_prop_object.
      step set_prop_object.
      eexists _, _. split; [reflexivity|].
      eexists _, _, _. split; [look|]. split; [apply lookup_insert_eq|].
      split; [look|].
      apply holds_updated_columns; [done| |done].
      new_column.
    + (* between two columns *)
      rewrite bind_assoc. step get_object.
      pose proof (Hrep dst) as Hd.
      destruct (columns d !! dst) as [dc|] eqn:Hdc;
        inversion Hd as [v ? Hv Hpv'|Hpn]; subst.
      * destruct Hv as (ld & pd & lb & -> & Hld & Hid' & Htitle' & Hids' & Hlb).
        step spread_object_object.
        step get_object. rewrite Hids.
        step spread_array_array.
        step set_prop_object.
        step get_object. rewrite lookup_insert_eq.
        step splice_array.
        step get_object. rewrite Hids'.
        step spread_array_array.
        step set_prop_object.
        step get_object. rewrite lookup_insert_eq.
        step splice_array.
        step get_object. rewrite Hcols.
        step spread_object_object.
        step set_prop_object.
        step set_prop_object.
        step set_prop_object.
        eexists _, _. split; [reflexivity|].
        eexists _, _, _. split; [look|]. split; [apply lookup_insert_eq|].
        split; [look|].
        apply holds_updated_columns; [done|new_column|intros _; new_column].
      * (* no destination column: its copy has no taskIds to spread *)
        step spread_object_undefined.
        step get_object. rewrite Hids.
        step spread_array_array.
        step set_prop_object.
        step get_object. rewrite lookup_insert_eq.
        step splice_array.
        step get_object. rewrite lookup_empty.
        thrown spread_array_undefined.
  - (* no source column: its copy has no taskIds to spread *)
    step spread_object_undefined.
    destruct (decide (src = dst)) as [<-|Hne].
    + rewrite bind_ret. step get_object. rewrite lookup_empty.
      thrown spread_array_undefined.
    + rewrite bind_assoc. step get_object.
      destruct (Hrep dst) as [v dc Hv|].
      * destruct Hv as (ld & pd & lb & -> & Hld & _).
        step spread_object_object.
        step get_object. rewrite lookup_empty.
        thrown spread_array_undefined.
      * step spread_object_undefined.
        step get_object. rewrite lookup_empty.
        thrown spread_array_undefined.
Qed.

(** The heap program and the function on values agree: on a board object
    that holds the columns of [d], the program returns an object that holds
    the columns of [Client.optimistic ... d], and it throws exactly when the
    function yields nothing. *)
Lemma optimistic_refines taskId src dst si di currentData h d :
  holds_columns h currentData (columns d) →
  match Client.optimistic taskId src dst si di d with
  | Some d' =>
    ∃ newData h',
      optimistic taskId src dst si di currentData h = (Some newData, h') ∧
      holds_columns h' newData (columns d')
  | None => ∃ h', optimistic taskId src dst si di currentData h = (None, h')
  end.
Proof.
  intros Hholds.
  pose proof (optimistic_refines_aux taskId src dst si di _ _ _ Hholds) as Haux.
  by rewrite app_nil_r in Haux.
Qed.

End heap_refinement.

(** ** Moves within one column *)

Lemma splice_start_in_range len (n : nat) :
  n ≤ len → Js.splice_start len (Z.of_nat n) = n.
Proof.
  intros Hn. unfold Js.splice_start.
  destruct (Z.ltb_spec (Z.of_nat n) 0); lia.
Qed.

Lemma splice_remove_in_range {A} (l : list A) s :
  s < length l → Js.splice (Z.of_nat s) 1 [] l = delete s l.
Proof.
  intros Hs. rewrite splice_remove_delete.
  by rewrite splice_start_in_range by lia.
Qed.

Lemma splice_insert_in_range {A} (l : list A) i x :
  i ≤ length l → Js.splice (Z.of_nat i) 0 [x] l = take i l ++ x :: drop i l.
Proof.
  intros Hi. unfold Js.splice.
  by rewrite splice_start_in_range, Nat.add_0_r.
Qed.

(** What the handler answers and writes when it can read and write the file,
    [data.tasks[id]] is truthy and both columns are columns of the
    document. *)
Lemma moveTask_found_served e id src dst si di file title sc dc :
  Server.read_ok e = true → Server.write_ok e = true →
  Server.found_title e file id = Some title →
  columns file !! src = Some sc → columns file !! dst = Some dc →
  Server.moveTask e id src dst si di file
  = (Server.RSuccess,
     let sc' := set_taskIds (Js.splice si 1 [] (taskIds sc)) sc in
     let dobj := if decide (src = dst) then sc' else dc in
     let moved :=
       set_columns
         (<[dst := set_taskIds (Js.splice di 0 [id] (taskIds dobj)) dobj]>
            (<[src := sc']> (columns file))) file in
     if decide (src ≠ dst)
     then Server.addToHistory e moved
            (Server.moved_msg (Js.text title) (col_title sc) (col_title dc))
     else moved).
Proof.
  intros Hr Hw Ht Hsc Hdc. unfold Server.moveTask, Server.persist.
  by rewrite Hr, Hw, Ht, Hsc, Hdc.
Qed.

(** C4: a move within one column, in the client's optimistic update (as a
    function on values and as the program on the heap) and in the server
    handler alike, first removes the element at the source index and then
    inserts the task id at the destination index of the shortened list; the
    other columns are untouched.  The handler does so whenever it can read
    and write the file and finds the task: it answers success and writes the
    document in which only that column has changed.  For indices inside the
    list the result has the task id at the destination index and, apart from
    it, the remaining elements in their old order. *)
Theorem same_column_move_removes_then_inserts taskId c si di d col :
  columns d !! c = Some col →
  let moved := Js.splice di 0 [taskId] (Js.splice si 1 [] (taskIds col)) in
  (∃ d', Client.optimistic taskId c c si di d = Some d' ∧
         columns d' !! c = Some (mkColumn (col_id col) (col_title col) moved) ∧
         ∀ c', c' ≠ c → columns d' !! c' = columns d !! c') ∧
  (∀ h currentData,
     Heap.holds_columns h currentData (columns d) →
     ∃ newData h',
       Heap.optimistic taskId c c si di currentData h = (Some newData, h') ∧
       Heap.holds_columns h' newData
         (<[c := mkColumn (col_id col) (col_title col) moved]> (columns d))) ∧
  (∀ e, Server.read_ok e = true → Server.write_ok e = true →
        is_Some (Server.found_title e d taskId) →
        Server.moveTask e taskId c c si di d
        = (Server.RSuccess,
           set_columns
             (<[c := mkColumn (col_id col) (col_title col) moved]> (columns d))
             d)) ∧
  (∀ e d', Server.moveTask e taskId c c si di d = (Server.RSuccess, d') →
           columns d' !! c = Some (mkColumn (col_id col) (col_title col) moved) ∧
           ∀ c', c' ≠ c → columns d' !! c' = columns d !! c') ∧
  (∀ s i, si = Z.of_nat s → di = Z.of_nat i →
          s < length (taskIds col) → i < length (taskIds col) →
          moved = take i (delete s (taskIds col))
                    ++ taskId :: drop i (delete s (taskIds col)) ∧
          moved !! i = Some taskId ∧
          delete i moved = delete s (taskIds col)).
Proof.
  intros Hc moved. split; [|split; [|split; [|split]]].
  - unfold Client.optimistic. rewrite Hc, decide_True by done.
    eexists. split; [reflexivity|]. cbn. split.
    + by rewrite lookup_insert_eq.
    + intros c' Hc'. by rewrite !lookup_insert_ne.
  - intros h currentData Hholds.
    pose proof (optimistic_refines taskId c c si di currentData h d Hholds)
      as Hrun.
    unfold Client.optimistic in Hrun. rewrite Hc, decide_True in Hrun by done.
    cbn in Hrun. by rewrite insert_insert_eq in Hrun.
  - intros e Hr Hw [title Ht].
    rewrite (moveTask_found_served e taskId c c si di d title col col)
      by done.
    rewrite (decide_False (P := c ≠ c)) by auto.
    rewrite decide_True by done. by rewrite insert_insert_eq.
  - intros e d' Hmove.
    apply moveTask_success_inv in Hmove
      as (t & sc & dc & Ht & Hsc & Hdc & ->).
    rewrite Hc in Hsc. injection Hsc as <-.
    rewrite (decide_False (P := c ≠ c)) by auto.
    rewrite decide_True by done. cbn. split.
    + by rewrite lookup_insert_eq.
    + intros c' Hc'. by rewrite !lookup_insert_ne.
  - intros s i -> -> Hs Hi. subst moved.
    rewrite splice_remove_in_range by done.
    assert (length (delete s (taskIds col)) = length (taskIds col) - 1) as Hlen.
    { apply length_delete. by apply lookup_lt_is_Some. }
    rewrite splice_insert_in_range by lia.
    assert (length (take i (delete s (taskIds col))) = i) as Htake.
    { rewrite length_take. lia. }
    split; [done|]. split.
    + by apply list_lookup_middle.
    + rewrite <- Htake at 1. rewrite delete_middle. apply take_drop.
Qed.

Lemma same_column_move_removes_then_inserts_witness :
  let e := Server.mkEnv "uuid-1" "n" "uuid-2" "n" true true in
  let d :=
    mkBoard {[ "task-1" := mkTask "task-1" "Task 1" None "n" ]}
      (<["column-1" := mkColumn "column-1" "To Do" ["task-1"; "task-3"]]>
         {[ "column-2" := mkColumn "column-2" "In Progress" ["task-2"] ]})
      ["column-1"; "column-2"] (Some []) in
  (∃ d', Client.optimistic "task-1" "column-1" "column-1" 0 1 d = Some d' ∧
         taskIds <$> columns d' !! "column-1" = Some ["task-3"; "task-1"] ∧
         taskIds <$> columns d' !! "column-2" = Some ["task-2"]) ∧
  (∃ d', Server.moveTask e "task-1" "column-1" "column-1" 0 1 d
         = (Server.RSuccess, d') ∧
         taskIds <$> columns d' !! "column-1" = Some ["task-3"; "task-1"] ∧
         taskIds <$> columns d' !! "column-2" = Some ["task-2"] ∧
         history d' = Some []).
Proof.
  cbv zeta.
  set (e := Server.mkEnv "uuid-1" "n" "uuid-2" "n" true true).
  set (d := mkBoard {[ "task-1" := mkTask "task-1" "Task 1" None "n" ]}
              (<["column-1" := mkColumn "column-1" "To Do" ["task-1"; "task-3"]]>
                 {[ "column-2" := mkColumn "column-2" "In Progress" ["task-2"] ]})
              ["column-1"; "column-2"] (Some [])).
  destruct (same_column_move_removes_then_inserts "task-1" "column-1" 0 1 d
              (mkColumn "column-1" "To Do" ["task-1"; "task-3"]))
    as ((d' & Hopt & Hcol & Hother) & _ & Hserved & _); [by vm_compute|].
  split.
  - exists d'. split; [done|]. split.
    + by rewrite Hcol.
    + rewrite Hother by done. by vm_compute.
  - eexists. split; [apply (Hserved e); [done|done|by eexists]|].
    by vm_compute.
Defined.

Example server_same_column_move :
  let e := Server.mkEnv "uuid-1" "n" "uuid-2" "n" true true in
  let d :=
    mkBoard {[ "task-1" := mkTask "task-1" "Task 1" None "n" ]}
      {[ "column-1" := mkColumn "column-1" "To Do" ["task-1"; "task-3"] ]}
      ["column-1"] (Some []) in
  taskIds <$> columns (Server.moveTask e "task-1" "column-1" "column-1" 0 1 d).2
                !! "column-1"
  = Some ["task-3"; "task-1"].
Proof. by vm_compute. Qed.

(** * Properties of the client cache *)

(** C6 as stated fails when the re-fetch fails as well: with the network
    down, the move request and the re-fetch are both rejected, and the store
    keeps the optimistic board (todo emptied) although the server still has
    task-1 in todo. *)
Lemma failed_refetch_keeps_optimistic_state :
  let server := Server.initialData "n" in
  let s := Client.mkStore (Some server) false None "" in
  let down := Client.ErrorObject "Failed to fetch" in
  let r := Client.moveTask "task-1" "todo" "done" 0 0
             (Client.Rejected down) (Client.Rejected down) s in
  r.2 = [Client.PostMove "task-1" "todo" "done" 0 0; Client.GetBoard] ∧
  Client.boardData r.1 = Client.optimistic "task-1" "todo" "done" 0 0 server ∧
  taskIds <$> columns server !! "todo" = Some ["task-1"] ∧
  (Client.boardData r.1 ≫= λ d, taskIds <$> columns d !! "todo") = Some [] ∧
  Client.boardData r.1 ≠ Some server.
Proof.
  cbv zeta. split; [by vm_compute|]. split; [by vm_compute|].
  split; [by vm_compute|]. split; [by vm_compute|].
  intros Heq.
  apply (f_equal (λ b, b ≫= λ d, taskIds <$> columns d !! "todo")) in Heq.
  vm_compute in Heq. discriminate Heq.
Qed.

(** C6, amended: once the optimistic update is applied, a move request that
    succeeds is followed by no other request and the store stays as the
    optimistic update left it.  One that fails makes the store set [error] to
    the normalized message and then run fetchBoard: if that fetch succeeds,
    boardData is the document the server returned (and fetchBoard has reset
    [error]); if it fails too, boardData stays the optimistic one and
    [error] holds the message of the fetch. *)
Theorem moveTask_confirms_or_resyncs
    taskId src dst si di move_reply board_reply s s1 :
  Client.apply_optimistic taskId src dst si di s = Some s1 →
  let post := Client.PostMove taskId src dst si di in
  let result := Client.moveTask taskId src dst si di move_reply board_reply s in
  (∀ d, Client.boardData s = Some d →
        Client.boardData s1 = Client.optimistic taskId src dst si di d) ∧
  (∀ u, move_reply = Client.Ok u → result = (s1, [post])) ∧
  (∀ t, Client.outcome move_reply = inl t →
     result
       = (Client.fetchBoard board_reply
            (Client.set_error
               (Some (Client.message_of t "Failed to move task")) s1),
          [post; Client.GetBoard]) ∧
     (∀ server, board_reply = Client.Ok server →
        Client.boardData result.1 = Some server ∧
        Client.error result.1 = None) ∧
     (∀ t', Client.outcome board_reply = inl t' →
        Client.boardData result.1 = Client.boardData s1 ∧
        Client.error result.1
          = Some (Client.message_of t' "Failed to fetch board data"))).
Proof.
  intros Hopt post result. split; [|split].
  - intros d Hd. unfold Client.apply_optimistic in Hopt. rewrite Hd in Hopt.
    destruct (Client.optimistic _ _ _ _ _ d); [|discriminate].
    by injection Hopt as <-.
  - intros u ->. subst result. unfold Client.moveTask. by rewrite Hopt.
  - intros t Ht.
    assert (result
       = (Client.fetchBoard board_reply
            (Client.set_error
               (Some (Client.message_of t "Failed to move task")) s1),
          [post; Client.GetBoard])) as Hres.
    { subst result. unfold Client.moveTask. by rewrite Hopt, Ht. }
    split; [done|]. rewrite Hres. cbn [fst]. split.
    + by intros server ->.
    + intros t' Ht'. unfold Client.fetchBoard. by rewrite Ht'.
Qed.

Lemma moveTask_confirms_or_resyncs_witness :
  let server := Server.initialData "n" in
  let s := Client.mkStore (Some server) false None "" in
  let r := Client.moveTask "task-1" "todo" "done" 0 0
             (Client.NotOk 400) (Client.Ok server) s in
  Client.boardData r.1 = Some server ∧
  r.2 = [Client.PostMove "task-1" "todo" "done" 0 0; Client.GetBoard].
Proof.
  cbv zeta.
  edestruct (moveTask_confirms_or_resyncs "task-1" "todo" "done" 0 0
               (Client.NotOk 400) (Client.Ok (Server.initialData "n"))
               (Client.mkStore (Some (Server.initialData "n")) false None ""))
    as (_ & _ & Hfail); [vm_compute; reflexivity|].
  destruct (Hfail _ eq_refl) as (Hres & Hok & _). split.
  - apply (Hok _ eq_refl).
  - by rewrite Hres.
Defined.

(** The message the store shows for the three kinds of failure of a move
    request. *)
Example move_error_messages :
  let server := Server.initialData "n" in
  let s := Client.mkStore (Some server) false None "" in
  let failed_fetch := Client.Rejected Client.NotAnError in
  let shown reply :=
    Client.error
      (Client.moveTask "task-1" "todo" "done" 0 0 reply failed_fetch s).1 in
  let set (reply : Client.Reply ()) :=
    match Client.outcome reply with
    | inl t => Some (Client.message_of t "Failed to move task")
    | inr _ => None
    end in
  set (Client.NotOk 400) = Some "HTTP error! status: 400" ∧
  set (Client.Rejected (Client.ErrorObject "Network error"))
    = Some "Network error" ∧
  set (Client.Rejected Client.NotAnError) = Some "Failed to move task" ∧
  shown (Client.NotOk 400) = Some "Failed to fetch board data" ∧
  shown (Client.Ok ()) = None.
Proof. by vm_compute. Qed.

(** * Further properties of the board store *)

(** ** Refused requests *)

Lemma refused_request_handle_inv e r file :
  (∀ status msg, (Server.handle e r file).1 = Server.RError status msg →
                 (Server.handle e r file).2 = file) ∧
  ((Server.handle e r file).1 = Server.RThrown →
   (Server.handle e r file).2 = file).
Proof.
  assert (∀ data ok failure,
            (∀ status msg, ok ≠ Server.RError status msg) →
            ok ≠ Server.RThrown →
            (∀ status msg,
               (Server.persist e file data ok failure).1
                 = Server.RError status msg →
               (Server.persist e file data ok failure).2 = file) ∧
            ((Server.persist e file data ok failure).1 = Server.RThrown →
             (Server.persist e file data ok failure).2 = file)) as Hpersist.
  { intros data ok failure Hok Hok'. unfold Server.persist.
    destruct (Server.write_ok e); cbn; [|done].
    split; [intros status msg Heq; by destruct (Hok status msg)|done]. }
  destruct r as [title descr|id title descr|id|id src dst si di];
    cbn [Server.handle].
  - unfold Server.createTask.
    destruct title as [t|]; [|done]. destruct (Js.falsy _); [done|].
    destruct (negb _); [done|].
    destruct (columns _ !! "todo") as [todo|]; [|done].
    by apply Hpersist.
  - unfold Server.updateTask. destruct (negb _); [done|].
    destruct (tasks file !! id) as [t|]; [by apply Hpersist|].
    destruct (Server.inherited e id); [|done]. by apply Hpersist.
  - unfold Server.deleteTask. destruct (negb _); [done|].
    destruct (Server.found_title e file id) as [t|]; [|done].
    by apply Hpersist.
  - unfold Server.moveTask. destruct (negb _); [done|].
    destruct (Server.found_title e file id) as [t|]; [|done].
    destruct (columns file !! src) as [sc|]; [|by destruct (_ && _)].
    destruct (columns file !! dst) as [dc|]; [|by destruct (_ && _)].
    by apply Hpersist.
Qed.

(** Every handler that answers with an error, or throws, leaves the
    persisted document as it was: a request never applies in part. *)
Theorem refused_request_changes_nothing e r file :
  (∀ status msg, (Server.handle e r file).1 = Server.RError status msg →
                 (Server.handle e r file).2 = file) ∧
  ((Server.handle e r file).1 = Server.RThrown →
   (Server.handle e r file).2 = file).
Proof. apply refused_request_handle_inv. Qed.

Lemma persist_not_404 e file data ok failure :
  ok ≠ Server.RError 404 "Task not found" →
  failure ≠ "Task not found" →
  (Server.persist e file data ok failure).1
  ≠ Server.RError 404 "Task not found".
Proof.
  intros Hok Hf. unfold Server.persist.
  destruct (Server.write_ok e); cbn; [done|]. by intros [= ?].
Qed.

(** The guard of update, delete and move is the truthiness of
    [data.tasks[id]], not the presence of a task.  The three handlers answer
    404 when the file cannot be read or the id is neither a task of the
    document nor found up the prototype chain, and only then.  A move that
    passes this
    guard is answered 400 when one of the two column ids is falsy in
    [data.columns]; when both are truthy but one is no column of the
    document, the handler throws.  The document stays as it was in each of
    these cases. *)
Theorem unknown_ids_are_refused e id file :
  tasks file !! id = None → Server.inherited e id = None →
  (∀ title description,
     Server.updateTask e id title description file
     = (Server.RError 404 "Task not found", file)) ∧
  Server.deleteTask e id file = (Server.RError 404 "Task not found", file) ∧
  (∀ src dst si di,
     Server.moveTask e id src dst si di file
     = (Server.RError 404 "Task not found", file)) ∧
  (Server.read_ok e = false →
   ∀ id' title description src dst si di,
     Server.updateTask e id' title description file
     = (Server.RError 404 "Task not found", file) ∧
     Server.deleteTask e id' file
     = (Server.RError 404 "Task not found", file) ∧
     Server.moveTask e id' src dst si di file
     = (Server.RError 404 "Task not found", file)) ∧
  (∀ id' title description src dst si di,
     Server.read_ok e = true → is_Some (Server.found_title e file id') →
     (Server.updateTask e id' title description file).1
       ≠ Server.RError 404 "Task not found" ∧
     (Server.deleteTask e id' file).1 ≠ Server.RError 404 "Task not found" ∧
     (Server.moveTask e id' src dst si di file).1
       ≠ Server.RError 404 "Task not found") ∧
  (∀ id' src dst si di,
     Server.read_ok e = true → is_Some (Server.found_title e file id') →
     (Server.column_truthy e file src = false
      ∨ Server.column_truthy e file dst = false →
      Server.moveTask e id' src dst si di file
      = (Server.RError 400 "Invalid column", file)) ∧
     (Server.column_truthy e file src = true →
      Server.column_truthy e file dst = true →
      columns file !! src = None ∨ columns file !! dst = None →
      Server.moveTask e id' src dst si di file = (Server.RThrown, file))).
Proof.
  intros Hid Hinh.
  assert (Server.found_title e file id = None) as Hfound.
  { unfold Server.found_title. by rewrite Hid, Hinh. }
  split; [|split; [|split; [|split; [|split]]]].
  - intros title description. unfold Server.updateTask.
    rewrite Hid, Hinh. by destruct (negb _).
  - unfold Server.deleteTask. rewrite Hfound. by destruct (negb _).
  - intros src dst si di. unfold Server.moveTask.
    rewrite Hfound. by destruct (negb _).
  - intros Hr id' title description src dst si di.
    unfold Server.updateTask, Server.deleteTask, Server.moveTask.
    by rewrite Hr.
  - intros id' title description src dst si di Hr [t Ht].
    split; [|split].
    + unfold Server.updateTask. rewrite Hr. cbn [negb].
      unfold Server.found_title in Ht.
      destruct (tasks file !! id') as [task|]; [by apply persist_not_404|].
      destruct (Server.inherited e id') as [v|]; [|done].
      by apply persist_not_404.
    + unfold Server.deleteTask. rewrite Hr, Ht. cbn [negb].
      by apply persist_not_404.
    + unfold Server.moveTask. rewrite Hr, Ht. cbn [negb].
      destruct (columns file !! src) as [sc|]; [|by destruct (_ && _)].
      destruct (columns file !! dst) as [dc|]; [|by destruct (_ && _)].
      by apply persist_not_404.
  - intros id' src dst si di Hr [t Ht]. unfold Server.moveTask.
    rewrite Hr, Ht. cbn [negb]. split.
    + intros Hfalsy.
      assert (Server.column_truthy e file src
              && Server.column_truthy e file dst = false) as Hboth.
      { destruct Hfalsy as [-> | ->]; [done|apply andb_false_r]. }
      rewrite Hboth. unfold Server.column_truthy in Hfalsy.
      destruct (columns file !! src) as [sc|]; [|done].
      destruct (columns file !! dst) as [dc|]; [|done].
      by destruct Hfalsy.
    + intros -> -> Hnone. cbn [andb].
      destruct (columns file !! src) as [sc|]; [|done].
      destruct (columns file !! dst) as [dc|]; [|done].
      by destruct Hnone.
Qed.

Lemma unknown_ids_are_refused_witness :
  let e := Server.mkEnv "u" "n" "h" "n" true true in
  Server.deleteTask e "ghost" (Server.initialData "n")
  = (Server.RError 404 "Task not found", Server.initialData "n") ∧
  Server.moveTask e "task-1" "todo" "archive" 0 0 (Server.initialData "n")
  = (Server.RError 400 "Invalid column", Server.initialData "n") ∧
  Server.moveTask e "task-1" "todo" "constructor" 0 0 (Server.initialData "n")
  = (Server.RThrown, Server.initialData "n") ∧
  (Server.deleteTask e "constructor" (Server.initialData "n")).1
  ≠ Server.RError 404 "Task not found".
Proof.
  cbv zeta.
  destruct (unknown_ids_are_refused
              (Server.mkEnv "u" "n" "h" "n" true true) "ghost"
              (Server.initialData "n"))
    as (_ & Hdel & _ & _ & Hguard & Hcol); [by vm_compute|by vm_compute|].
  split; [done|]. split; [|split].
  - apply Hcol; [done|by eexists|]. right. by vm_compute.
  - apply Hcol; [done|by eexists|by vm_compute|by vm_compute|].
    right. by vm_compute.
  - apply (Hguard "constructor" None None "todo" "todo" 0%Z 0%Z);
      [done|by eexists].
Defined.

(** The same guard passes a name of Object.prototype: moving [constructor]
    is served, takes whatever is at the source index out of the source
    column, lists the name in the destination and logs the title it reads,
    undefined. *)
Example inherited_id_is_served :
  let e := Server.mkEnv "u" "n" "h" "n" true true in
  let r := Server.MoveTask "constructor" "todo" "done" 0 0 in
  let d := (Server.handle e r (Server.initialData "n")).2 in
  (Server.handle e r (Server.initialData "n")).1 = Server.RSuccess ∧
  taskIds <$> columns d !! "todo" = Some [] ∧
  taskIds <$> columns d !! "done" = Some ["constructor"] ∧
  tasks d = tasks (Server.initialData "n") ∧
  action <$> history_list d
  = ["Moved " +:+ Js.dquote +:+ "undefined" +:+ Js.dquote
       +:+ " from To Do to Done"] ∧
  Server.addresses_task (Server.initialData "n") e r = false.
Proof. cbv zeta. by vm_compute. Qed.

(** ** Listing an id that is no task (I4) *)

Lemma elem_of_splice {A} (x : A) start n items l :
  x ∈ Js.splice start n items l → x ∈ items ∨ x ∈ l.
Proof.
  unfold Js.splice. rewrite !elem_of_app.
  intros [Hx | [Hx | Hx]]; [|by left|].
  - right. by eapply subseteq_take.
  - right. by eapply subseteq_drop.
Qed.

Lemma step_ids_have_tasks d e r :
  Board.ids_have_tasks d →
  Board.moves_name_no_inherited [(e, r)] = true →
  Board.ids_have_tasks (Server.step d (e, r)).
Proof.
  intros Hinv Hown. one_step d e r; [done|..].
  - intros c col x. cbn. rewrite lookup_insert. case_decide as Hc.
    + intros [= <-]. cbn. rewrite elem_of_app, list_elem_of_singleton.
      intros [Hx | ->]; [|rewrite lookup_insert_eq; eauto].
      rewrite lookup_insert. case_decide; [eauto|]. by eapply Hinv.
    + intros Hcol Hx. rewrite lookup_insert. case_decide; [eauto|].
      by eapply Hinv.
  - intros c col x. cbn. intros Hcol Hx.
    rewrite lookup_insert. case_decide; [eauto|]. by eapply Hinv.
  - done.
  - intros c col x. cbn. rewrite lookup_fmap.
    destruct (columns d !! c) as [old|] eqn:Hold; [|done].
    intros [= <-]. cbn. intros [Hne Hx]%list_elem_of_filter.
    rewrite lookup_delete_ne by done. by eapply Hinv.
  - assert (is_Some (tasks d !! id)) as Hid.
    { cbn in Hown. apply found_title_Some in Ht
        as [(t & Hown' & _) | (v & _ & Hv & _)]; [by eexists|].
      by rewrite Hv in Hown. }
    assert (Board.ids_have_tasks
      (set_columns
         (<[dst := set_taskIds
                     (Js.splice di 0 [id]
                        (taskIds (if decide (src = dst)
                                  then set_taskIds
                                         (Js.splice si 1 [] (taskIds sc)) sc
                                  else dc)))
                     (if decide (src = dst)
                      then set_taskIds (Js.splice si 1 [] (taskIds sc)) sc
                      else dc)]>
            (<[src := set_taskIds (Js.splice si 1 [] (taskIds sc)) sc]>
               (columns d))) d)) as Hmoved.
    { intros c col x. cbn.
      intros [[-> ->] | [(-> & _ & ->) | (_ & _ & Hold)]]%lookup_moved_columns.
      - cbn. intros [->%list_elem_of_singleton | Hx]%elem_of_splice; [done|].
        destruct (decide (src = dst)) as [->|_]; [|by eapply Hinv].
        cbn in Hx. apply elem_of_splice in Hx as [[]%elem_of_nil | Hx].
        by apply (Hinv dst sc).
      - cbn. intros [[]%elem_of_nil | Hx]%elem_of_splice.
        by apply (Hinv src sc).
      - by eapply Hinv. }
    cbv zeta. by destruct (decide (src ≠ dst)).
Qed.

Lemma run_ids_have_tasks d rs :
  Board.ids_have_tasks d → Board.moves_name_no_inherited rs = true →
  Board.ids_have_tasks (Server.run d rs).
Proof.
  revert d. induction rs as [|[e r] rs IH]; intros d Hd Hown; [done|].
  cbn in Hown. apply andb_true_iff in Hown as [Hr Hrs].
  cbn. apply IH; [|done]. apply step_ids_have_tasks; [done|].
  cbn. by rewrite Hr.
Qed.

(** As long as no move names an id that is found up the prototype chain,
    each id a column lists is the id of a stored task, however the requests
    were made (the move indices are not restricted): a run that starts from
    a document with this property keeps it, and the seed has it.  A move of
    a name of Object.prototype breaks it: the handler serves the move and
    lists the name, for which there is no task. *)
Theorem no_dangling_ids :
  (∀ d rs, Board.ids_have_tasks d →
           Board.moves_name_no_inherited rs = true →
           Board.ids_have_tasks (Server.run d rs)) ∧
  (∀ now rs, Board.moves_name_no_inherited rs = true →
             Board.ids_have_tasks (Server.run (Server.initialData now) rs)) ∧
  (∀ now e, Server.read_ok e = true → Server.write_ok e = true →
            is_Some (Server.inherited e "constructor") →
            ¬ Board.ids_have_tasks
                (Server.run (Server.initialData now)
                   [(e, Server.MoveTask "constructor" "todo" "done" 0 0)])).
Proof.
  split; [apply run_ids_have_tasks|]. split.
  - intros now rs. apply run_ids_have_tasks.
    exact (proj2 (proj2 (columns_wf_initial now))).
  - intros now e Hr Hw [v Hv] Hinv.
    destruct (Hinv "done"
                (mkColumn "done" "Done"
                   (Js.splice 0 0 ["constructor"] [])) "constructor")
      as [t Ht].
    + cbn. unfold Server.step, Server.handle. cbn [fst snd].
      rewrite (moveTask_found_served e "constructor" "todo" "done" 0 0
                 (Server.initialData now) (Js.inh_title v)
                 (mkColumn "todo" "To Do" ["task-1"])
                 (mkColumn "done" "Done" [])); try done.
      unfold Server.found_title. cbn. by rewrite Hv.
    + by left.
    + cbn in Ht. unfold Server.step, Server.handle in Ht. cbn [fst snd] in Ht.
      rewrite (moveTask_found_served e "constructor" "todo" "done" 0 0
                 (Server.initialData now) (Js.inh_title v)
                 (mkColumn "todo" "To Do" ["task-1"])
                 (mkColumn "done" "Done" [])) in Ht; try done.
      unfold Server.found_title. cbn. by rewrite Hv.
Qed.

Lemma no_dangling_ids_witness :
  let e := Server.mkEnv "u" "n" "h" "n" true true in
  let rs :=
    [(e, Server.MoveTask "task-1" "todo" "done" 5 0);
     (e, Server.MoveTask "task-1" "todo" "inprogress" (-7) 3);
     (e, Server.DeleteTask "ghost");
     (e, Server.UpdateTask "constructor" (Some "x") None)] in
  Board.ids_have_tasks (Server.run (Server.initialData "n") rs) ∧
  ¬ Board.ids_have_tasks
      (Server.run (Server.initialData "n")
         [(e, Server.MoveTask "constructor" "todo" "done" 0 0)]).
Proof.
  cbv zeta. split.
  - apply (proj1 (proj2 no_dangling_ids)). by vm_compute.
  - apply (proj2 (proj2 no_dangling_ids)); [done|done|by eexists].
Defined.
(** ** The columns are fixed (I3) *)

Lemma step_column_heading d e r c :
  (λ col, (col_id col, col_title col)) <$> columns (Server.step d (e, r)) !! c
  = (λ col, (col_id col, col_title col)) <$> columns d !! c.
Proof.
  one_step d e r; [done|..]; cbn.
  - rewrite lookup_insert. case_decide as Hc; [|done]. subst c.
    by rewrite Htodo.
  - done.
  - done.
  - rewrite lookup_fmap. by destruct (columns d !! c).
  - assert (∀ h, columns (if decide (src ≠ dst)
                          then Server.addToHistory e h
                                 (Server.moved_msg (Js.text title)
                                    (col_title sc) (col_title dc))
                          else h) = columns h) as ->
      by (intros h; by destruct (decide (src ≠ dst))).
    cbn. rewrite !lookup_insert.
    destruct (decide (dst = c)) as [<-|Hd].
    + rewrite Hdc. destruct (decide (src = dst)) as [->|_]; [|done].
      rewrite Hsc in Hdc. by injection Hdc as ->.
    + destruct (decide (src = c)) as [<-|Hs]; [by rewrite Hsc|done].
Qed.

Lemma run_column_heading d rs c :
  (λ col, (col_id col, col_title col)) <$> columns (Server.run d rs) !! c
  = (λ col, (col_id col, col_title col)) <$> columns d !! c.
Proof.
  revert d. induction rs as [|[e r] rs IH]; intros d; [done|].
  cbn. by rewrite IH, step_column_heading.
Qed.

Lemma run_columnOrder_wf now rs :
  Board.columnOrder_wf (Server.run (Server.initialData now) rs).
Proof.
  split.
  - rewrite run_columnOrder. cbn. by apply NoDup_ListNoDup; repeat constructor;
      cbn; intuition discriminate.
  - intros c. rewrite run_columnOrder, run_column_present. cbn.
    rewrite !elem_of_cons, elem_of_nil. split.
    + intros [-> | [-> | [-> | []]]]; by eexists.
    + intros [col Hcol]. rewrite !lookup_insert, lookup_singleton in Hcol.
      repeat case_decide; subst; auto. discriminate Hcol.
Qed.

(** No request adds, removes or renames a column or touches [columnOrder]:
    after any run every key of [columns] still has a column with the same id
    and title, and [columnOrder] is the same list.  From the seed,
    [columnOrder] therefore always lists exactly the keys of [columns], each
    once. *)
Theorem columns_are_fixed :
  (∀ d rs c,
     (λ col, (col_id col, col_title col)) <$> columns (Server.run d rs) !! c
     = (λ col, (col_id col, col_title col)) <$> columns d !! c) ∧
  (∀ d rs, columnOrder (Server.run d rs) = columnOrder d) ∧
  (∀ now rs, Board.columnOrder_wf (Server.run (Server.initialData now) rs)).
Proof.
  split; [apply run_column_heading|].
  split; [apply run_columnOrder|apply run_columnOrder_wf].
Qed.

(** ** No task is lost *)

Lemma step_tasks_are_listed d e r :
  Board.tasks_are_listed d → Server.addresses_task d e r = true →
  Board.tasks_are_listed (Server.step d (e, r)).
Proof.
  intros Hinv Haddr. one_step d e r; [done|..].
  - intros x. cbn. rewrite lookup_insert. case_decide as Hx.
    + subst x. intros _. eexists "todo", _. rewrite lookup_insert_eq.
      split; [done|]. cbn. apply elem_of_app. right. by left.
    + intros (c & col & Hc & Hin)%Hinv.
      destruct (decide (c = "todo")) as [->|Hne].
      * eexists "todo", _. rewrite lookup_insert_eq. split; [done|]. cbn.
        apply elem_of_app. left. rewrite Htodo in Hc. by injection Hc as ->.
      * exists c, col. by rewrite lookup_insert_ne.
  - intros x. cbn. rewrite lookup_insert. case_decide as Hx.
    + subst x. intros _. apply Hinv. eauto.
    + apply Hinv.
  - done.
  - intros x. cbn. rewrite lookup_delete. case_decide as Hx;
      [by intros [? ?]|].
    intros (c & col & Hc & Hin)%Hinv. eexists c, _.
    rewrite lookup_fmap, Hc. split; [done|]. cbn.
    apply list_elem_of_filter. split; [congruence|done].
  - cbn [Server.addresses_task] in Haddr. rewrite Ht, Hsc, Hdc in Haddr.
    apply bool_decide_eq_true in Haddr.
    pose proof (splice_remove_perm si id (taskIds sc) Haddr) as Hrem.
    cbv zeta.
    assert (Board.tasks_are_listed
      (set_columns
         (<[dst := set_taskIds
                     (Js.splice di 0 [id]
                        (taskIds (if decide (src = dst)
                                  then set_taskIds
                                         (Js.splice si 1 [] (taskIds sc)) sc
                                  else dc)))
                     (if decide (src = dst)
                      then set_taskIds (Js.splice si 1 [] (taskIds sc)) sc
                      else dc)]>
            (<[src := set_taskIds (Js.splice si 1 [] (taskIds sc)) sc]>
               (columns d))) d)) as Hmoved;
      [|by destruct (decide (src ≠ dst))].
    intros x Hx. cbn.
    destruct (decide (x = id)) as [->|Hxid].
    { eexists dst, _. rewrite lookup_insert_eq. split; [done|]. cbn.
      rewrite splice_insert_perm. by left. }
    destruct (Hinv x Hx) as (c & col & Hc & Hin).
    destruct (decide (c = dst)) as [->|Hcd].
    { eexists dst, _. rewrite lookup_insert_eq. split; [done|]. cbn.
      rewrite splice_insert_perm. right.
      rewrite Hdc in Hc. injection Hc as <-.
      destruct (decide (src = dst)) as [->|_]; [|done]. cbn.
      rewrite Hsc in Hdc. injection Hdc as ->.
      rewrite <- Hrem in Hin. by apply elem_of_cons in Hin as [?|?]. }
    destruct (decide (c = src)) as [->|Hcs].
    { eexists src, _. rewrite lookup_insert_ne, lookup_insert_eq by done.
      split; [done|]. cbn. rewrite Hsc in Hc. injection Hc as <-.
      rewrite <- Hrem in Hin. by apply elem_of_cons in Hin as [?|?]. }
    exists c, col. by rewrite !lookup_insert_ne.
Qed.

Lemma run_tasks_are_listed d rs :
  Server.columns_wf d → Board.tasks_are_listed d →
  Server.admissible d rs = true →
  Board.tasks_are_listed (Server.run d rs).
Proof.
  revert d. induction rs as [|[e r] rs IH]; intros d Hwf Hd Hadm; [done|].
  cbn in Hadm.
  apply andb_true_iff in Hadm as [[Haddr Hfresh]%andb_true_iff Hadm].
  cbn. apply IH; [by apply step_wf|by apply step_tasks_are_listed|done].
Qed.

Lemma tasks_are_listed_initial now :
  Board.tasks_are_listed (Server.initialData now).
Proof.
  intros x [t Hx]. cbn in Hx.
  apply lookup_singleton_Some in Hx as [<- _].
  eexists "todo", _. split; [by cbn|]. by left.
Qed.

(** In every state reached from the seed by requests in which each move
    addresses its task and each new uuid is fresh, the stored tasks are
    exactly the ids the columns list, and each of them is listed by exactly
    one column: no task is duplicated and none drops off the board. *)
Theorem every_task_in_exactly_one_column now rs :
  Server.admissible (Server.initialData now) rs = true →
  ∀ id,
    is_Some (tasks (Server.run (Server.initialData now) rs) !! id)
    ↔ ∃ c col,
        columns (Server.run (Server.initialData now) rs) !! c = Some col ∧
        id ∈ taskIds col ∧
        ∀ c' col',
          columns (Server.run (Server.initialData now) rs) !! c' = Some col' →
          id ∈ taskIds col' → c' = c.
Proof.
  intros Hadm id.
  pose proof (run_wf _ _ (columns_wf_initial now) Hadm) as (_ & Hone & Hkey).
  pose proof (run_tasks_are_listed _ _ (columns_wf_initial now)
                (tasks_are_listed_initial now) Hadm) as Hlisted.
  split.
  - intros (c & col & Hc & Hin)%Hlisted. exists c, col.
    split; [done|]. split; [done|]. intros c' col' Hc' Hin'.
    by apply (Hone id c' c col' col).
  - intros (c & col & Hc & Hin & _). by apply (Hkey c col).
Qed.

Lemma every_task_in_exactly_one_column_witness :
  let e u := Server.mkEnv u "n" "uuid-h" "n" true true in
  let rs :=
    [(e "a", Server.CreateTask (Some "Buy milk") None);
     (e "-", Server.MoveTask "a" "todo" "done" 1 0);
     (e "-", Server.MoveTask "task-1" "todo" "inprogress" (-1) 5);
     (e "-", Server.DeleteTask "ghost")] in
  ∃ c col,
    columns (Server.run (Server.initialData "n") rs) !! c = Some col ∧
    "a" ∈ taskIds col.
Proof.
  cbv zeta.
  set (rs :=
    [(Server.mkEnv "a" "n" "uuid-h" "n" true true,
      Server.CreateTask (Some "Buy milk") None);
     (Server.mkEnv "-" "n" "uuid-h" "n" true true,
      Server.MoveTask "a" "todo" "done" 1 0);
     (Server.mkEnv "-" "n" "uuid-h" "n" true true,
      Server.MoveTask "task-1" "todo" "inprogress" (-1) 5);
     (Server.mkEnv "-" "n" "uuid-h" "n" true true,
      Server.DeleteTask "ghost")]).
  assert (Server.admissible (Server.initialData "n") rs = true) as Hadm
    by (vm_compute; reflexivity).
  destruct (proj1 (every_task_in_exactly_one_column "n" rs Hadm "a"))
    as (c & col & Hc & Hin & _); [by eexists|].
  by exists c, col.
Defined.

(** ** Deleting, updating and creating: what changes and what is logged *)

(** A successful deleteTask removes the task from [tasks] and its id from
    every column; the other tasks are untouched, every column keeps its other
    ids in their order, and the history gets the entry Deleted task:
    <quoted title> in front.  The title is the one [data.tasks[id].title]
    reads: the title of the task, for an id that is a task of the document
    (for a value found up the prototype chain there is no task to remove,
    and the rest is done all the same). *)
Theorem deleteTask_removes_everywhere e id file d' :
  Server.deleteTask e id file = (Server.RNoContent, d') →
  ∃ title,
    Server.found_title e file id = Some title ∧
    (∀ t, tasks file !! id = Some t → title = Some (task_title t)) ∧
    tasks d' !! id = None ∧
    (∀ x, x ≠ id → tasks d' !! x = tasks file !! x) ∧
    (∀ c col', columns d' !! c = Some col' → id ∉ taskIds col') ∧
    (∀ c, columns d' !! c
          = (λ col, mkColumn (col_id col) (col_title col)
                      (filter (λ x, x ≠ id) (taskIds col)))
              <$> columns file !! c) ∧
    columnOrder d' = columnOrder file ∧
    history d'
    = Some (take 5
              (mkEntry (Server.uuid_entry e)
                 ("Deleted task: " +:+ Js.dquote +:+ Js.text title
                    +:+ Js.dquote)
                 (Server.now_entry e)
               :: history_list file)).
Proof.
  unfold Server.deleteTask, Server.persist.
  destruct (negb _); [discriminate|].
  destruct (Server.found_title e file id) as [title|] eqn:Ht; [|discriminate].
  destruct (Server.write_ok e); [|discriminate].
  intros [= <-]. exists title. cbn. split; [done|]. split.
  { intros t Hown. rewrite (found_title_own e file id t Hown) in Ht.
    by injection Ht as <-. }
  split; [apply lookup_delete_eq|].
  split; [intros x Hx; by apply lookup_delete_ne|].
  split; [|split; [|done]].
  - intros c col'. rewrite lookup_fmap.
    destruct (columns file !! c) as [col|]; [|done]. intros [= <-]. cbn.
    rewrite list_elem_of_filter. by intros [? _].
  - intros c. by rewrite lookup_fmap.
Qed.

Lemma deleteTask_removes_everywhere_witness :
  let e := Server.mkEnv "u" "n" "h" "later" true true in
  let d' := (Server.deleteTask e "task-1" (Server.initialData "n")).2 in
  tasks d' !! "task-1" = None ∧
  taskIds <$> columns d' !! "todo" = Some [].
Proof.
  cbv zeta.
  destruct (Server.deleteTask (Server.mkEnv "u" "n" "h" "later" true true)
              "task-1" (Server.initialData "n")) as [resp d'] eqn:Hrun.
  assert (resp = Server.RNoContent) as ->.
  { vm_compute in Hrun. by injection Hrun as <- _. }
  destruct (deleteTask_removes_everywhere _ _ _ _ Hrun)
    as (t & _ & _ & Hgone & _ & _ & Hcols & _).
  cbn [snd]. split; [done|]. rewrite Hcols. by vm_compute.
Defined.

(** A successful updateTask changes one task and nothing else: the task
    keeps its id and creation time, the other tasks, the columns and
    [columnOrder] are untouched, and the history gets the entry Updated task:
    <quoted old title> <arrow> <quoted new title> in front, the arrow being
    the eight bytes the source has there.  When the id is no task but a
    value found up the prototype chain, the answer is the JSON of that value
    and the document changes in its history only; the titles logged are the
    ones read from that value, undefined where it has none. *)
Theorem updateTask_touches_one_task e id title description file d' :
  (∀ t',
     Server.updateTask e id title description file
     = (Server.RTask 200 t', d') →
     ∃ t,
       tasks file !! id = Some t ∧ tasks d' !! id = Some t' ∧
       task_id t' = task_id t ∧ createdAt t' = createdAt t ∧
       (∀ x, x ≠ id → tasks d' !! x = tasks file !! x) ∧
       columns d' = columns file ∧ columnOrder d' = columnOrder file ∧
       history d'
       = Some (take 5
                 (mkEntry (Server.uuid_entry e)
                    ("Updated task: " +:+ Js.dquote +:+ task_title t
                       +:+ Js.dquote +:+ " " +:+ Js.arrow +:+ " "
                       +:+ Js.dquote +:+ task_title t' +:+ Js.dquote)
                    (Server.now_entry e)
                  :: history_list file))) ∧
  (Server.updateTask e id title description file = (Server.RInherited, d') →
   ∃ v,
     tasks file !! id = None ∧ Server.inherited e id = Some v ∧
     tasks d' = tasks file ∧ columns d' = columns file ∧
     columnOrder d' = columnOrder file ∧
     history d'
     = Some (take 5
               (mkEntry (Server.uuid_entry e)
                  ("Updated task: " +:+ Js.dquote
                     +:+ Js.text (Js.inh_title v)
                     +:+ Js.dquote +:+ " " +:+ Js.arrow +:+ " "
                     +:+ Js.dquote
                     +:+ Js.text (if Js.inh_object v
                                  then Js.or_undefined title (Js.inh_title v)
                                  else Js.inh_title v)
                     +:+ Js.dquote)
                  (Server.now_entry e)
                :: history_list file))).
Proof.
  split.
  - intros t'. unfold Server.updateTask, Server.persist.
    destruct (negb _); [discriminate|].
    destruct (tasks file !! id) as [t|] eqn:Ht.
    + destruct (Server.write_ok e); [|discriminate].
      intros [= <- <-]. exists t. cbn. repeat split; try done.
      * apply lookup_insert_eq.
      * intros x Hx. by apply lookup_insert_ne.
    + destruct (Server.inherited e id); [|discriminate].
      by destruct (Server.write_ok e).
  - unfold Server.updateTask, Server.persist.
    destruct (negb _); [discriminate|].
    destruct (tasks file !! id) as [t|] eqn:Ht.
    + by destruct (Server.write_ok e).
    + destruct (Server.inherited e id) as [v|] eqn:Hv; [|discriminate].
      destruct (Server.write_ok e); [|discriminate].
      intros [= <-]. by exists v.
Qed.

Lemma updateTask_touches_one_task_witness :
  let e := Server.mkEnv "u" "n" "h" "later" true true in
  let d' :=
    (Server.updateTask e "task-1" (Some "Hello") None (Server.initialData "n")).2
  in
  let d'' :=
    (Server.updateTask e "toString" (Some "Hello") None
       (Server.initialData "n")).2 in
  let arrow :=
    string_of_list_ascii
      (ascii_of_nat <$> [195; 162; 226; 128; 160; 226; 128; 153]) in
  columns d' = columns (Server.initialData "n") ∧
  createdAt <$> tasks d' !! "task-1" = Some "n" ∧
  action <$> history_list d' !! 0
  = Some ("Updated task: " +:+ Js.dquote +:+ "Welcome to your Kanban Board!"
            +:+ Js.dquote +:+ " " +:+ arrow +:+ " " +:+ Js.dquote +:+ "Hello"
            +:+ Js.dquote) ∧
  tasks d'' = tasks (Server.initialData "n") ∧
  action <$> history_list d'' !! 0
  = Some ("Updated task: " +:+ Js.dquote +:+ "undefined"
            +:+ Js.dquote +:+ " " +:+ arrow +:+ " " +:+ Js.dquote +:+ "Hello"
            +:+ Js.dquote).
Proof.
  cbv zeta.
  set (e := Server.mkEnv "u" "n" "h" "later" true true).
  destruct (Server.updateTask e "task-1" (Some "Hello") None
              (Server.initialData "n")) as [resp d'] eqn:Hrun.
  assert (∃ t', resp = Server.RTask 200 t') as [t' ->].
  { vm_compute in Hrun. injection Hrun as <- _. eauto. }
  destruct (Server.updateTask e "toString" (Some "Hello") None
              (Server.initialData "n")) as [resp' d''] eqn:Hrun'.
  assert (resp' = Server.RInherited) as ->.
  { vm_compute in Hrun'. by injection Hrun' as <- _. }
  destruct (updateTask_touches_one_task e "task-1" (Some "Hello") None
              (Server.initialData "n") d') as (Hown & _).
  destruct (Hown t' Hrun)
    as (t & Ht & Ht' & _ & Hcreated & _ & Hcols & _ & Hhist).
  destruct (updateTask_touches_one_task e "toString" (Some "Hello") None
              (Server.initialData "n") d'') as (_ & Hinh).
  destruct (Hinh Hrun') as (v & _ & Hv & Htasks & _ & _ & Hhist').
  cbn [snd]. split; [done|]. split.
  { rewrite Ht'. cbn. rewrite Hcreated.
    vm_compute in Ht. by injection Ht as <-. }
  split.
  { unfold history_list. rewrite Hhist. vm_compute in Ht. injection Ht as <-.
    vm_compute in Hrun. injection Hrun as <- _. by vm_compute. }
  split; [done|].
  unfold history_list. rewrite Hhist'. vm_compute in Hv. injection Hv as <-. by vm_compute.
Defined.

(** The writes of an update on an inherited value stay in the process, and a
    later request reads them through its own environment.  Here the second
    request is served by the process as the first one has left it. *)
Example inherited_title_is_remembered :
  let e1 := Server.mkEnv "u" "n" "h1" "n" true true in
  let d1 :=
    (Server.updateTask e1 "constructor" (Some "X") None
       (Server.initialData "n")).2 in
  let e2 :=
    Server.mkProcessEnv "u" "n" "h2" "n" true true
      (λ key, if bool_decide (key = "constructor")
              then Some (Js.mkInherited (Some "X") true)
              else Js.fresh_prototype key) in
  action <$> history_list
               (Server.moveTask e2 "constructor" "todo" "done" 0 0 d1).2
  = ["Moved " +:+ Js.dquote +:+ "X" +:+ Js.dquote +:+ " from To Do to Done";
     "Updated task: " +:+ Js.dquote +:+ "undefined" +:+ Js.dquote +:+ " "
       +:+ Js.arrow +:+ " " +:+ Js.dquote +:+ "X" +:+ Js.dquote].
Proof. cbv zeta. by vm_compute. Qed.

(** A successful createTask keeps every task that was there (when the uuid
    is new, [tasks] grows by exactly one), stamps the task with the time read
    at the request, and puts the entry Created task: <quoted title> in front
    of the history. *)
Theorem createTask_logs_and_keeps_tasks e title description file t d' :
  Server.createTask e title description file = (Server.RTask 201 t, d') →
  (∀ x, x ≠ Server.uuid_task e → tasks d' !! x = tasks file !! x) ∧
  (tasks file !! Server.uuid_task e = None →
   size (tasks d') = S (size (tasks file))) ∧
  createdAt t = Server.now_task e ∧
  history d'
  = Some (take 5
            (mkEntry (Server.uuid_entry e)
               ("Created task: " +:+ Js.dquote +:+ task_title t +:+ Js.dquote)
               (Server.now_entry e)
             :: history_list file)).
Proof.
  intros Hcreate.
  apply createTask_created_inv in Hcreate
    as (title' & todo & -> & Hne & _ & _ & Htodo & -> & ->).
  cbn. repeat split.
  - intros x Hx. by apply lookup_insert_ne.
  - intros Hfresh. by apply map_size_insert_None.
Qed.

Lemma createTask_logs_and_keeps_tasks_witness :
  let e := Server.mkEnv "uuid-1" "n" "uuid-2" "later" true true in
  let d' :=
    (Server.createTask e (Some "Buy milk") None (Server.initialData "n")).2 in
  size (tasks d') = 2 ∧
  action <$> history_list d' = [Server.created_msg "Buy milk"].
Proof.
  cbv zeta.
  destruct (Server.createTask
              (Server.mkEnv "uuid-1" "n" "uuid-2" "later" true true)
              (Some "Buy milk") None (Server.initialData "n"))
    as [resp d'] eqn:Hrun.
  assert (∃ t, resp = Server.RTask 201 t ∧ task_title t = "Buy milk")
    as (t & -> & Htitle).
  { vm_compute in Hrun. injection Hrun as <- _. eauto. }
  destruct (createTask_logs_and_keeps_tasks _ _ _ _ _ _ Hrun)
    as (_ & Hsize & _ & Hhist).
  cbn [snd]. split.
  - rewrite Hsize by (by vm_compute). by vm_compute.
  - unfold history_list. rewrite Hhist, Htitle. by vm_compute.
Defined.

(** ** Moving back, and indices outside the list *)

Lemma moveTask_served e id src dst si di file t sc dc :
  Server.read_ok e = true → Server.write_ok e = true →
  tasks file !! id = Some t →
  columns file !! src = Some sc → columns file !! dst = Some dc →
  let sc' := set_taskIds (Js.splice si 1 [] (taskIds sc)) sc in
  let dobj := if decide (src = dst) then sc' else dc in
  let moved :=
    set_columns
      (<[dst := set_taskIds (Js.splice di 0 [id] (taskIds dobj)) dobj]>
         (<[src := sc']> (columns file))) file in
  Server.moveTask e id src dst si di file
  = (Server.RSuccess,
     if decide (src ≠ dst)
     then Server.addToHistory e moved
            (Server.moved_msg (task_title t) (col_title sc) (col_title dc))
     else moved).
Proof.
  intros Hr Hw Ht Hsc Hdc.
  by rewrite (moveTask_found_served e id src dst si di file
                (Some (task_title t)) sc dc)
    by (try done; by apply found_title_own).
Qed.

Lemma splice_put_back {A} (l : list A) s x :
  l !! s = Some x →
  Js.splice (Z.of_nat s) 0 [x] (Js.splice (Z.of_nat s) 1 [] l) = l.
Proof.
  intros Hs. pose proof (lookup_lt_Some _ _ _ Hs) as Hlt.
  rewrite splice_remove_in_range by done.
  rewrite splice_insert_in_range
    by (rewrite length_delete by eauto; lia).
  rewrite delete_take_drop.
  rewrite take_app_length', drop_app_length' by (rewrite length_take; lia).
  by apply take_drop_middle.
Qed.

Lemma splice_take_out {A} (l : list A) t x :
  t ≤ length l →
  Js.splice (Z.of_nat t) 1 [] (Js.splice (Z.of_nat t) 0 [x] l) = l.
Proof.
  intros Ht. rewrite splice_insert_in_range by done.
  rewrite splice_remove_in_range
    by (rewrite length_app, length_take; cbn; rewrite length_drop; lia).
  assert (length (take t l) = t) as Hlen by (rewrite length_take; lia).
  rewrite <- Hlen at 1. rewrite delete_middle. apply take_drop.
Qed.

Lemma set_taskIds_twice l l' c :
  set_taskIds l (set_taskIds l' c) = set_taskIds l c.
Proof. done. Qed.

Lemma set_taskIds_same c : set_taskIds (taskIds c) c = c.
Proof. by destruct c. Qed.

(** Dragging a task back undoes the move.  If the task is at index [s] of
    column [a] and is moved to index [t] of column [b] (an index inside the
    destination list), then moving it from index [t] of [b] to index [s] of
    [a] gives every column the [taskIds] it had; [tasks] and [columnOrder]
    are untouched throughout. *)
Theorem move_back_restores_columns e1 e2 id a b s t file task ca cb :
  Server.read_ok e1 = true → Server.write_ok e1 = true →
  Server.read_ok e2 = true → Server.write_ok e2 = true →
  tasks file !! id = Some task →
  columns file !! a = Some ca → columns file !! b = Some cb →
  taskIds ca !! s = Some id →
  t + (if decide (a = b) then 1 else 0) ≤ length (taskIds cb) →
  let d1 :=
    (Server.moveTask e1 id a b (Z.of_nat s) (Z.of_nat t) file).2 in
  let d2 :=
    (Server.moveTask e2 id b a (Z.of_nat t) (Z.of_nat s) d1).2 in
  columns d2 = columns file ∧ tasks d2 = tasks file ∧
  columnOrder d2 = columnOrder file.
Proof.
  intros Hr1 Hw1 Hr2 Hw2 Htask Ha Hb Hs Ht d1 d2.
  pose proof (lookup_lt_Some _ _ _ Hs) as Hlt.
  subst d2 d1.
  rewrite (moveTask_served e1 id a b _ _ file task ca cb) by done.
  cbn [snd]. destruct (decide (a = b)) as [<-|Hne].
  - rewrite Ha in Hb. injection Hb as <-.
    rewrite (decide_False (P := a ≠ a)) by auto.
    set (R := Js.splice (Z.of_nat s) 1 [] (taskIds ca)).
    set (c1 := set_taskIds (Js.splice (Z.of_nat t) 0 [id] R)
                 (set_taskIds R ca)).
    rewrite (moveTask_served e2 id a a _ _ _ task c1 c1);
      [|done|done|done|cbn; apply lookup_insert_eq..].
    rewrite (decide_False (P := a ≠ a)) by auto.
    rewrite decide_True by done. cbn.
    rewrite !insert_insert_eq. subst R.
    rewrite splice_take_out
      by (rewrite splice_remove_in_range, length_delete by eauto; lia).
    rewrite splice_put_back by done.
    subst c1. rewrite !set_taskIds_twice, set_taskIds_same.
    by rewrite insert_id.
  - rewrite decide_True by done.
    set (ca1 := set_taskIds (Js.splice (Z.of_nat s) 1 [] (taskIds ca)) ca).
    set (cb1 := set_taskIds (Js.splice (Z.of_nat t) 0 [id] (taskIds cb)) cb).
    rewrite (moveTask_served e2 id b a _ _ _ task cb1 ca1);
      [|done|done|done|cbn..];
      [|apply lookup_insert_eq
       |by rewrite lookup_insert_ne, lookup_insert_eq by done].
    rewrite decide_True by auto. rewrite decide_False by auto. cbn.
    rewrite splice_take_out by lia.
    rewrite splice_put_back by done.
    subst ca1 cb1. rewrite !set_taskIds_twice, !set_taskIds_same.
    split; [|done]. apply map_eq. intros c. rewrite !lookup_insert.
    repeat case_decide; by subst.
Qed.

Lemma move_back_restores_columns_witness :
  let e := Server.mkEnv "u" "n" "h" "later" true true in
  let d1 :=
    (Server.moveTask e "task-1" "todo" "done" 0 0 (Server.initialData "n")).2 in
  let d2 := (Server.moveTask e "task-1" "done" "todo" 0 0 d1).2 in
  taskIds <$> columns d1 !! "done" = Some ["task-1"] ∧
  columns d2 = columns (Server.initialData "n").
Proof.
  cbv zeta. split; [by vm_compute|].
  eapply (move_back_restores_columns
            (Server.mkEnv "u" "n" "h" "later" true true)
            (Server.mkEnv "u" "n" "h" "later" true true)
            "task-1" "todo" "done" 0 0 (Server.initialData "n"));
    try reflexivity; cbn; lia.
Defined.

Lemma splice_start_high len i :
  (Z.of_nat len ≤ i)%Z → Js.splice_start len i = len.
Proof. intros Hi. unfold Js.splice_start. destruct (Z.ltb_spec i 0); lia. Qed.

Lemma splice_start_low len i :
  (i ≤ - Z.of_nat len)%Z → Js.splice_start len i = 0.
Proof. intros Hi. unfold Js.splice_start. destruct (Z.ltb_spec i 0); lia. Qed.

Lemma splice_start_from_end len k :
  0 < k ≤ len → Js.splice_start len (- Z.of_nat k) = len - k.
Proof. intros Hk. unfold Js.splice_start. destruct (Z.ltb_spec (- Z.of_nat k) 0); lia. Qed.

(** Indices outside the list are not refused, they are clamped as [splice]
    clamps them.  In a successful move between two columns: a source index at
    or beyond the end removes nothing (the id then stays in the source as
    well); a source index at or below minus the length removes the first
    element, whatever it is; a negative source index inside the list counts
    from the end; a destination index at or beyond the end appends the id; a
    destination index at or below minus the length puts it first. *)
Theorem move_indices_are_clamped e id src dst si di file d' :
  Server.moveTask e id src dst si di file = (Server.RSuccess, d') →
  src ≠ dst →
  ∃ sc dc,
    columns file !! src = Some sc ∧ columns file !! dst = Some dc ∧
    ∃ ls ld,
      taskIds <$> columns d' !! src = Some ls ∧
      taskIds <$> columns d' !! dst = Some ld ∧
      ((Z.of_nat (length (taskIds sc)) ≤ si)%Z → ls = taskIds sc) ∧
      ((si ≤ - Z.of_nat (length (taskIds sc)))%Z → ls = drop 1 (taskIds sc)) ∧
      (∀ k, 0 < k ≤ length (taskIds sc) → si = (- Z.of_nat k)%Z →
            ls = delete (length (taskIds sc) - k) (taskIds sc)) ∧
      ((Z.of_nat (length (taskIds dc)) ≤ di)%Z → ld = taskIds dc ++ [id]) ∧
      ((di ≤ - Z.of_nat (length (taskIds dc)))%Z → ld = id :: taskIds dc).
Proof.
  intros Hmove Hne.
  apply moveTask_success_inv in Hmove
    as (t & sc & dc & Ht & Hsc & Hdc & ->).
  exists sc, dc. split; [done|]. split; [done|].
  rewrite decide_True by done. rewrite decide_False by done.
  eexists _, _. cbn. split.
  { by rewrite lookup_insert_ne, lookup_insert_eq by done. }
  split.
  { by rewrite lookup_insert_eq. }
  cbn. unfold Js.splice. repeat split.
  - intros Hi. rewrite splice_start_high by done. cbn.
    by rewrite take_ge, drop_ge by lia; rewrite app_nil_r.
  - intros Hi. by rewrite splice_start_low by done.
  - intros k Hk ->. rewrite splice_start_from_end by done. cbn.
    rewrite Nat.add_1_r. symmetry. apply delete_take_drop.
  - intros Hi. rewrite splice_start_high by done. cbn.
    by rewrite take_ge, drop_ge by lia.
  - intros Hi. by rewrite splice_start_low by done.
Qed.

Lemma move_indices_are_clamped_witness :
  let e := Server.mkEnv "u" "n" "h" "later" true true in
  let d' :=
    (Server.moveTask e "task-1" "todo" "done" 7 99 (Server.initialData "n")).2
  in
  taskIds <$> columns d' !! "todo" = Some ["task-1"] ∧
  taskIds <$> columns d' !! "done" = Some ["task-1"].
Proof.
  cbv zeta.
  destruct (Server.moveTask (Server.mkEnv "u" "n" "h" "later" true true)
              "task-1" "todo" "done" 7 99 (Server.initialData "n"))
    as [resp d'] eqn:Hrun.
  assert (resp = Server.RSuccess) as ->.
  { vm_compute in Hrun. by injection Hrun as <- _. }
  destruct (move_indices_are_clamped _ _ _ _ _ _ _ _ Hrun)
    as (sc & dc & Hsc & Hdc & ls & ld & Hls & Hld & Hhigh & _ & _ & Happ & _);
    [done|].
  vm_compute in Hsc, Hdc. injection Hsc as <-. injection Hdc as <-.
  cbn [snd]. rewrite Hls, Hld. split.
  - by rewrite Hhigh by (cbn; lia).
  - by rewrite Happ by (cbn; lia).
Defined.

(** * Further properties of the client store *)

(** ** The optimistic guess and the server's answer *)

Lemma optimistic_guess_of_served_move e id src dst si di file d' :
  Server.moveTask e id src dst si di file = (Server.RSuccess, d') →
  ∃ guess,
    Client.optimistic id src dst si di file = Some guess ∧
    columns guess = columns d' ∧ tasks guess = tasks d' ∧
    columnOrder guess = columnOrder d' ∧
    history guess = history file ∧
    (src = dst → guess = d') ∧
    (src ≠ dst → length (history_list d') = min 5 (S (length (history_list file)))).
Proof.
  intros Hmove.
  apply moveTask_success_inv in Hmove
    as (t & sc & dc & Ht & Hsc & Hdc & ->).
  unfold Client.optimistic. rewrite Hsc.
  destruct (decide (src = dst)) as [<-|Hne].
  - rewrite (decide_False (P := src ≠ src)) by auto.
    eexists. split; [reflexivity|]. do 5 (split; [done|]).
    intros Habs. by destruct Habs.
  - rewrite Hdc, decide_True by done.
    eexists. split; [reflexivity|]. do 4 (split; [done|]).
    split; [done|]. intros _.
    rewrite history_list_addToHistory, length_take. cbn [length].
    by unfold history_list.
Qed.


(** Whenever the server accepts a move, the optimistic update computed on
    the same document arrives at the same columns; it leaves [tasks] and
    [columnOrder] as the server does.  It does not log: its history is the
    old one, so after a move between two columns the guess lacks the entry
    the server has pushed, while for a move within a column the guess is the
    server's document. *)
Theorem optimistic_matches_server e id src dst si di file d' :
  Server.moveTask e id src dst si di file = (Server.RSuccess, d') →
  ∃ guess,
    Client.optimistic id src dst si di file = Some guess ∧
    columns guess = columns d' ∧ tasks guess = tasks d' ∧
    columnOrder guess = columnOrder d' ∧
    history guess = history file ∧
    (src = dst → guess = d') ∧
    (src ≠ dst → length (history_list d') = min 5 (S (length (history_list file)))).
Proof. apply optimistic_guess_of_served_move. Qed.

Lemma optimistic_matches_server_witness :
  let e := Server.mkEnv "u" "n" "h" "later" true true in
  let file := Server.initialData "n" in
  ∃ guess,
    Client.optimistic "task-1" "todo" "done" 0 0 file = Some guess ∧
    columns guess
    = columns (Server.moveTask e "task-1" "todo" "done" 0 0 file).2.
Proof.
  cbv zeta.
  destruct (Server.moveTask (Server.mkEnv "u" "n" "h" "later" true true)
              "task-1" "todo" "done" 0 0 (Server.initialData "n"))
    as [resp d'] eqn:Hrun.
  assert (resp = Server.RSuccess) as ->.
  { vm_compute in Hrun. by injection Hrun as <- _. }
  destruct (optimistic_matches_server _ _ _ _ _ _ _ _ Hrun)
    as (guess & Hguess & Hcols & _).
  by exists guess.
Defined.

(** moveTask sends nothing in exactly one situation: a board is present and
    lacks the source or the destination column, so that the optimistic update
    throws; the store is then left as it was.  In every other case, the
    absent board included, the move request is the first thing sent. *)
Theorem move_request_is_sent_unless_update_throws
    taskId src dst si di move_reply board_reply s :
  let result :=
    Client.moveTask taskId src dst si di move_reply board_reply s in
  (result.2 = []
   ↔ ∃ d, Client.boardData s = Some d ∧
          (columns d !! src = None ∨ columns d !! dst = None)) ∧
  (result.2 = [] → result.1 = s) ∧
  (result.2 ≠ [] →
   ∃ rest, result.2 = Client.PostMove taskId src dst si di :: rest).
Proof.
  cbv zeta.
  assert (∀ d, Client.optimistic taskId src dst si di d = None
               ↔ columns d !! src = None ∨ columns d !! dst = None) as Hthrow.
  { intros d. unfold Client.optimistic.
    destruct (columns d !! src) as [sc|] eqn:Hsc; [|by split; auto].
    destruct (decide (src = dst)) as [<-|Hne].
    - rewrite Hsc. split; [done|]. by intros [?|?].
    - destruct (columns d !! dst); split; try done; auto. by intros [?|?]. }
  unfold Client.moveTask, Client.apply_optimistic.
  destruct (Client.boardData s) as [d|] eqn:Hd.
  - destruct (Client.optimistic taskId src dst si di d) as [guess|] eqn:Hopt.
    + assert (¬ (columns d !! src = None ∨ columns d !! dst = None)) as Hcols.
      { rewrite <- Hthrow. by rewrite Hopt. }
      destruct (Client.outcome move_reply); cbn; repeat split; try done;
        eauto; intros (d0 & [= <-] & ?); done.
    + cbn. repeat split; try done. intros _. exists d. split; [done|].
      by apply Hthrow.
  - destruct (Client.outcome move_reply); cbn; repeat split; try done;
      eauto; by intros (d0 & ? & ?).
Qed.

(** ** Store and server together *)

Lemma fetchBoard_served e' file' s :
  Server.read_ok e' = true →
  Client.fetchBoard (System.board_reply e' file') s
  = Client.mkStore (Some file') false None (Client.filter s).
Proof.
  intros Hr. unfold System.board_reply, Board.getBoard. by rewrite Hr.
Qed.



(** A move through the store, starting with the cache equal to the server's
    document and with a re-fetch that can read it: whatever the server
    answers, the cache afterwards has the server's [tasks], [columns] and
    [columnOrder].  Either the move was refused (or never sent) and both
    sides hold the document from before, or it was accepted and the cache
    holds the optimistic guess. *)
Theorem move_keeps_cache_in_step e e' taskId src dst si di s file s' file' :
  Client.boardData s = Some file → Server.read_ok e' = true →
  System.moveTask e e' taskId src dst si di s file = Some (s', file') →
  ∃ b,
    Client.boardData s' = Some b ∧
    columns b = columns file' ∧ tasks b = tasks file' ∧
    columnOrder b = columnOrder file' ∧
    ((file' = file ∧ b = file)
     ∨ ((Server.moveTask e taskId src dst si di file).1 = Server.RSuccess ∧
        Client.optimistic taskId src dst si di file = Some b)).
Proof.
  intros Hs Hr'. unfold System.moveTask, Client.apply_optimistic.
  rewrite Hs.
  destruct (Client.optimistic taskId src dst si di file) as [guess|] eqn:Hopt.
  2: { intros [= <- <-]. exists file. by eauto 10. }
  destruct (Server.moveTask e taskId src dst si di file) as [resp d'] eqn:Hmove.
  cbn [fst snd].
  assert (∀ st msg, resp = Server.RError st msg → d' = file) as Hrefused.
  { intros st msg ->.
    pose proof (proj1 (refused_request_handle_inv e
                         (Server.MoveTask taskId src dst si di) file) st msg)
      as Hsame.
    cbn [Server.handle] in Hsame. rewrite Hmove in Hsame. by apply Hsame. }
  unfold Client.moveTask, Client.apply_optimistic. rewrite Hs, Hopt.
  destruct resp as [st t| | | |st msg|]; cbn [System.reply System.status];
    [| | | | |done].
  - (* the move handler never answers with a task *)
    exfalso. revert Hmove. unfold Server.moveTask, Server.persist.
    repeat (case_match; try discriminate).
  - exfalso. revert Hmove. unfold Server.moveTask, Server.persist.
    repeat (case_match; try discriminate).
  - exfalso. revert Hmove. unfold Server.moveTask, Server.persist.
    repeat (case_match; try discriminate).
  - cbn. intros [= <- <-].
    destruct (optimistic_guess_of_served_move _ _ _ _ _ _ _ _ Hmove)
      as (guess' & Hguess & Hcols & Htasks & Horder & _).
    rewrite Hopt in Hguess. injection Hguess as <-.
    exists guess. by eauto 10.
  - rewrite (Hrefused st msg eq_refl).
    case_bool_decide as Hst.
    + (* an error answer with a success status: not sent by this handler *)
      exfalso. revert Hmove. unfold Server.moveTask, Server.persist.
      repeat (case_match; try discriminate); intros [= <- _]; lia.
    + cbn [Client.outcome fst]. rewrite fetchBoard_served by done.
      intros [= <- <-]. exists file. by eauto 10.
Qed.

Lemma move_keeps_cache_in_step_witness :
  let e := Server.mkEnv "u" "n" "h" "later" true true in
  let file := Server.initialData "n" in
  let s := Client.mkStore (Some file) false None "" in
  ∃ s',
    System.moveTask e e "ghost" "todo" "done" 0 0 s file = Some (s', file) ∧
    Client.boardData s' = Some file.
Proof.
  cbv zeta.
  set (e := Server.mkEnv "u" "n" "h" "later" true true).
  set (file := Server.initialData "n").
  set (s := Client.mkStore (Some file) false None "").
  destruct (System.moveTask e e "ghost" "todo" "done" 0 0 s file)
    as [[s' file']|] eqn:Hrun; [|by vm_compute in Hrun].
  destruct (move_keeps_cache_in_step e e "ghost" "todo" "done" 0 0 s file
              s' file' eq_refl eq_refl Hrun)
    as (b & Hb & _ & _ & _ & [[-> ->] | [Hserved _]]).
  - by exists s'.
  - by vm_compute in Hserved.
Defined.

(** * Properties of the components *)

(** ** Dropping a card *)

(** onDragEnd calls moveTask unless the card was dropped outside every
    column or exactly where it was picked up.  The call it skips would have
    changed nothing: for a card that sits at the source index of its column,
    the optimistic update returns the board it was given and the server
    handler persists the document it read. *)
Theorem skipped_drop_is_a_no_op result :
  (Ui.onDragEnd result = None
   ↔ Ui.destination result = None
     ∨ Ui.destination result = Some (Ui.source result)) ∧
  (∀ d col e,
     columns d !! Ui.droppableId (Ui.source result) = Some col →
     taskIds col !! Ui.index (Ui.source result)
       = Some (Ui.draggableId result) →
     let c := Ui.droppableId (Ui.source result) in
     let i := Z.of_nat (Ui.index (Ui.source result)) in
     Client.optimistic (Ui.draggableId result) c c i i d = Some d ∧
     (Server.moveTask e (Ui.draggableId result) c c i i d).2 = d).
Proof.
  split.
  - unfold Ui.onDragEnd.
    destruct (Ui.destination result) as [[dc di]|]; [|by split; auto].
    destruct (Ui.source result) as [sc si]. cbn.
    repeat case_bool_decide; cbn; split; try done;
      first [ by intros _; right; subst
            | intros [?|[= ? ?]]; done ].
  - intros d col e Hcol Hidx c i. subst c i.
    assert (Js.splice (Z.of_nat (Ui.index (Ui.source result))) 0
              [Ui.draggableId result]
              (Js.splice (Z.of_nat (Ui.index (Ui.source result))) 1 []
                 (taskIds col)) = taskIds col) as Hsame
      by by apply splice_put_back.
    assert (set_columns
              (<[Ui.droppableId (Ui.source result) :=
                   set_taskIds
                     (Js.splice (Z.of_nat (Ui.index (Ui.source result))) 0
                        [Ui.draggableId result]
                        (Js.splice (Z.of_nat (Ui.index (Ui.source result)))
                           1 [] (taskIds col))) col]> (columns d)) d = d)
      as Hd.
    { rewrite Hsame, set_taskIds_same, insert_id by done. by destruct d. }
    split.
    + unfold Client.optimistic. rewrite Hcol, decide_True by done. cbn.
      rewrite insert_insert_eq. f_equal. by rewrite set_taskIds_twice.
    + unfold Server.moveTask, Server.persist.
      destruct (negb _); [done|].
      destruct (Server.found_title e d (Ui.draggableId result)); [|done].
      rewrite Hcol. destruct (Server.write_ok e); [|done]. cbn [snd].
      rewrite (decide_False (P := _ ≠ _)) by auto.
      rewrite decide_True by done. cbn.
      rewrite insert_insert_eq, Hsame.
      rewrite Hsame in Hd. by rewrite set_taskIds_twice.
Qed.

(** ** Submitting the forms *)



(** What TaskCard saves is stored as typed, trimmed.  A title that is empty
    after trimming is not saved; otherwise the task (if it still exists) gets
    the trimmed title and the trimmed description, so that a description can
    be cleared from the card but a title cannot. *)
Theorem saved_card_is_stored_trimmed
    (trim : string → string) editTitle editDescription e id file old :
  Server.read_ok e = true → Server.write_ok e = true →
  tasks file !! id = Some old →
  match Ui.handleSave trim editTitle editDescription with
  | None => trim editTitle = ""
  | Some (t, d) =>
    trim editTitle ≠ "" ∧
    ∃ task file',
      Server.updateTask e id (Some t) (Some d) file
      = (Server.RTask 200 task, file') ∧
      tasks file' !! id = Some task ∧
      task_title task = trim editTitle ∧
      task_description task = Some (trim editDescription)
  end.
Proof.
  intros Hr Hw Hold. unfold Ui.handleSave. cbn [Js.falsy].
  case_bool_decide as Htitle; [done|]. split; [done|].
  unfold Server.updateTask, Server.persist. rewrite Hr, Hw, Hold.
  cbn [negb]. eexists _, _. split; [reflexivity|]. cbn.
  split; [apply lookup_insert_eq|]. split; [|done].
  by rewrite bool_decide_eq_false_2.
Qed.

Lemma saved_card_is_stored_trimmed_witness :
  let e := Server.mkEnv "uuid-1" "n" "uuid-2" "later" true true in
  ∃ task file',
    Server.updateTask e "task-1" (Some "Hello") (Some "")
      (Server.initialData "n")
    = (Server.RTask 200 task, file') ∧
    task_description task = Some "".
Proof.
  cbv zeta.
  pose proof (saved_card_is_stored_trimmed (λ s, s) "Hello" ""
                (Server.mkEnv "uuid-1" "n" "uuid-2" "later" true true)
                "task-1" (Server.initialData "n")
                (mkTask "task-1" "Welcome to your Kanban Board!"
                   (Some "Drag me to different columns or edit me by clicking!")
                   "n")
                eq_refl eq_refl eq_refl) as Hsave.
  cbn in Hsave. destruct Hsave as (_ & task & file' & Hupdate & _ & _ & Hd).
  by exists task, file'.
Defined.

Lemma skipped_drop_is_a_no_op_witness :
  let result :=
    Ui.mkDrop (Some (Ui.mkLocation "todo" 0)) (Ui.mkLocation "todo" 0)
      "task-1" in
  Ui.onDragEnd result = None ∧
  Client.optimistic "task-1" "todo" "todo" 0 0 (Server.initialData "n")
  = Some (Server.initialData "n").
Proof.
  cbv zeta. split; [by vm_compute|].
  apply (proj2 (skipped_drop_is_a_no_op
                  (Ui.mkDrop (Some (Ui.mkLocation "todo" 0))
                     (Ui.mkLocation "todo" 0) "task-1"))
           (Server.initialData "n") (mkColumn "todo" "To Do" ["task-1"])
           (Server.mkEnv "u" "n" "h" "n" true true));
    reflexivity.
Defined.

(** ** The age of a history entry *)

(** formatTimestamp by the age of the entry (now minus its time, in
    milliseconds): under one minute, which includes every timestamp in the
    future, it shows Now; from one minute to under an hour, the whole minutes,
    a number from 1 to 59; from one hour to under a day, the whole hours, a
    number from 1 to 23; from one day on, the locale date.  It never shows
    0m, 60m, 0h or 24h.  A timestamp that does not parse shows as Invalid
    Date. *)
Theorem formatTimestamp_ranges (toLocaleDateString : Z → string) now t :
  let shown := Ui.formatTimestamp toLocaleDateString now (Some t) in
  let age := (now - t)%Z in
  ((age < 60000)%Z → shown = "Now") ∧
  ((60000 ≤ age < 3600000)%Z →
   shown = pretty (age / 60000)%Z +:+ "m ago" ∧ (1 ≤ age / 60000 ≤ 59)%Z) ∧
  ((3600000 ≤ age < 86400000)%Z →
   shown = pretty (age / 3600000)%Z +:+ "h ago" ∧
   (1 ≤ age / 3600000 ≤ 23)%Z) ∧
  ((86400000 ≤ age)%Z → shown = toLocaleDateString t) ∧
  Ui.formatTimestamp toLocaleDateString now None = "Invalid Date".
Proof.
  cbv zeta. unfold Ui.formatTimestamp.
  assert (((now - t) / 60000 / 60 = (now - t) / 3600000)%Z) as Hhours
    by (rewrite Z.div_div by lia; done).
  rewrite Hhours.
  split; [|split; [|split; [|split; [|done]]]]; intros Hage;
    try split;
    repeat match goal with
           | |- context [Z.ltb ?a ?b] => destruct (Z.ltb_spec a b)
           end; try done;
    Z.to_euclidean_division_equations; lia.
Qed.

Example formatTimestamp_examples :
  let show age := Ui.formatTimestamp (λ _, "1/1/2024") 100000000 (Some (100000000 - age))%Z in
  show (-5000)%Z = "Now" ∧ show 59999%Z = "Now" ∧
  show 60000%Z = "1m ago" ∧ show 3599999%Z = "59m ago" ∧
  show 3600000%Z = "1h ago" ∧ show 86399999%Z = "23h ago" ∧
  show 86400000%Z = "1/1/2024".
Proof. by vm_compute. Qed.

(** ** What the board shows *)

Lemma lookup_task_Card b id t :
  Ui.lookup_task b id = Some (Ui.Card t) ↔ tasks b !! id = Some t.
Proof.
  unfold Ui.lookup_task. destruct (tasks b !! id) as [t'|].
  - split; by intros [= ->].
  - by case_bool_decide.
Qed.

Lemma lookup_task_Builtin b id k :
  Ui.lookup_task b id = Some (Ui.Builtin k)
  ↔ k = id ∧ tasks b !! id = None ∧ id ∈ Js.prototype_names.
Proof.
  unfold Ui.lookup_task. destruct (tasks b !! id) as [t'|].
  - split; [done|]. by intros (_ & ? & _).
  - case_bool_decide as Hk.
    + split; [by intros [= ->]|by intros (-> & _)].
    + split; [done|]. by intros (_ & _ & ?).
Qed.

Lemma omap_lookup_task_own b ids :
  Forall (λ id, is_Some (tasks b !! id)) ids →
  omap (Ui.lookup_task b) ids = Ui.Card <$> omap (λ id, tasks b !! id) ids.
Proof.
  induction 1 as [|id ids [t Ht] _ IH]; [done|].
  cbn. unfold Ui.lookup_task at 1. rewrite Ht. cbn. by rewrite IH.
Qed.

Lemma filter_or_throw_None {A} (p : A → option bool) l :
  Ui.filter_or_throw p l = None ↔ ∃ x, x ∈ l ∧ p x = None.
Proof.
  induction l as [|x l IH]; cbn.
  - split; [done|]. by intros (? & ?%elem_of_nil & _).
  - destruct (p x) as [keep|] eqn:Hx.
    + destruct (Ui.filter_or_throw p l) as [k|].
      * split; [done|]. intros (y & [-> | Hy]%elem_of_cons & Hnone);
          [congruence|].
        assert (Some k = None) as Hk by (apply IH; by exists y). done.
      * split; [|done]. intros _.
        destruct (proj1 IH eq_refl) as (y & Hy & Hnone).
        exists y. split; [by right|done].
    + split; [|done]. intros _. exists x. split; [by left|done].
Qed.

Lemma filter_or_throw_cards (p : Task → bool) (l : list Task) :
  Ui.filter_or_throw
    (λ s, match s with
          | Ui.Card t => Some (p t)
          | Ui.Builtin _ => None
          end) (Ui.Card <$> l)
  = Some (Ui.Card <$> base.filter (λ t, p t) l).
Proof.
  induction l as [|t l IH]; [done|].
  rewrite fmap_cons, filter_cons. cbn [Ui.filter_or_throw]. rewrite IH.
  by destruct (p t).
Qed.

Section shown.
Variable toLowerCase : string → string.
Variable includes : string → string → bool.

(** The tasks among [ids] that pass the filter, in the order of [ids]. *)
Local Abbreviation passing b flt ids :=
  (if Js.falsy (Some flt%string) then omap (λ id, tasks b !! id) ids
   else base.filter (λ t, Ui.matches toLowerCase includes flt t)
          (omap (λ id, tasks b !! id) ids)).

Lemma passing_app b filter ids1 ids2 :
  passing b filter (ids1 ++ ids2)
  = passing b filter ids1 ++ passing b filter ids2.
Proof.
  rewrite omap_app.
  destruct (Js.falsy (Some filter)); [done|]. by rewrite filter_app.
Qed.

Lemma passing_perm b filter ids1 ids2 :
  ids1 ≡ₚ ids2 → passing b filter ids1 ≡ₚ passing b filter ids2.
Proof.
  intros Hperm.
  destruct (Js.falsy (Some filter)); by rewrite Hperm.
Qed.

Lemma getFilteredTasks_own b filter ids :
  Forall (λ id, is_Some (tasks b !! id)) ids →
  Ui.getFilteredTasks toLowerCase includes (Some b) filter ids
  = Some (Ui.Card <$> passing b filter ids).
Proof.
  intros Hown. unfold Ui.getFilteredTasks. cbv zeta.
  rewrite omap_lookup_task_own by done.
  destruct (Js.falsy (Some filter)); [done|].
  apply (filter_or_throw_cards
           (λ t, Ui.matches toLowerCase includes filter t)).
Qed.

Lemma shown_own b filter cs :
  Forall (λ c, ∃ col, columns b !! c = Some col ∧
                      Forall (λ id, is_Some (tasks b !! id)) (taskIds col))
    cs →
  ∃ cols,
    mapM (λ c, match columns b !! c with
               | Some column =>
                   pair column
                     <$> Ui.getFilteredTasks toLowerCase includes (Some b)
                           filter (taskIds column)
               | None => None
               end) cs = Some cols ∧
    cols.*1 = omap (λ c, columns b !! c) cs ∧
    concat cols.*2
    = Ui.Card
        <$> passing b filter
              (cs ≫= λ c, from_option taskIds [] (columns b !! c)).
Proof.
  induction 1 as [|c cs (col & Hc & Hown) _ (cols & Hcols & Hfst & Hcards)].
  - exists []. cbn. by destruct (bool_decide _).
  - exists ((col, Ui.Card <$> passing b filter (taskIds col)) :: cols).
    split; [|split].
    + apply mapM_Some. constructor; [|by apply mapM_Some].
      by rewrite Hc, (getFilteredTasks_own b filter (taskIds col) Hown).
    + cbn. by rewrite Hc, Hfst.
    + rewrite fmap_cons. cbn [concat snd].
      rewrite Hcards, bind_cons, Hc. cbn [from_option].
      by rewrite passing_app, fmap_app.
Qed.

Lemma passing_all_keys b filter :
  length (passing b filter (map_to_list (tasks b)).*1)
  = Ui.filteredCount toLowerCase includes (Some b) filter.
Proof.
  unfold Ui.filteredCount, Ui.totalTasks.
  assert (omap (λ id, tasks b !! id) (map_to_list (tasks b)).*1
          = (map_to_list (tasks b)).*2) as ->.
  { assert (∀ l : list (string * Task),
              Forall (λ kv, tasks b !! kv.1 = Some kv.2) l →
              omap (λ id, tasks b !! id) l.*1 = l.*2) as Hgen.
    { induction 1 as [|[k v] l Hkv _ IH]; [done|].
      cbn in *. by rewrite Hkv, IH. }
    apply Hgen, Forall_forall. intros [k v]. apply elem_of_map_to_list. }
  destruct (Js.falsy (Some filter)); [|done].
  by rewrite length_fmap, length_map_to_list.
Qed.

End shown.

Lemma length_concat_sum {A} (ls : list (list A)) :
  length (concat ls) = sum_list (length <$> ls).
Proof.
  induction ls as [|l ls IH]; [done|]. cbn. by rewrite length_app, IH.
Qed.

Lemma listed_ids_perm b :
  Server.columns_wf b → Board.tasks_are_listed b → Board.columnOrder_wf b →
  Board.listed_ids b ≡ₚ (map_to_list (tasks b)).*1.
Proof.
  intros (Hnodup & Hone & Hkey) Hlisted [Horder Hcols].
  assert (∀ c id,
            id ∈ from_option taskIds [] (columns b !! c)
            ↔ ∃ col, columns b !! c = Some col ∧ id ∈ taskIds col) as Hfrom.
  { intros c id. destruct (columns b !! c) as [col|]; cbn.
    - split; [by exists col|]. by intros (? & [= <-] & ?).
    - split; [by intros ?%elem_of_nil|]. by intros (? & [=] & _). }
  apply NoDup_Permutation.
  - apply NoDup_bind; [| |done].
    + intros c1 c2 id _ _ (col1 & Hc1 & Hin1)%Hfrom (col2 & Hc2 & Hin2)%Hfrom.
      by apply (Hone id c1 c2 col1 col2).
    + intros c _. destruct (columns b !! c) as [col|] eqn:Hc; cbn.
      * by apply (Hnodup c).
      * constructor.
  - apply NoDup_fst_map_to_list.
  - intros id. unfold Board.listed_ids. rewrite list_elem_of_bind.
    rewrite list_elem_of_fmap. split.
    + intros (c & (col & Hc & Hin)%Hfrom & _).
      destruct (Hkey c col id Hc Hin) as [t Ht].
      exists (id, t). split; [done|]. by apply elem_of_map_to_list.
    + intros ([k t] & -> & Ht%elem_of_map_to_list). cbn.
      destruct (Hlisted k) as (c & col & Hc & Hin); [by eexists|].
      exists c. split; [apply Hfrom; by exists col|].
      apply Hcols. by eexists.
Qed.

(** What a column shows.  Each id is looked up in [boardData.tasks]: an id
    of a task gives that task, a name of Object.prototype that is no task
    gives the value inherited under it, any other id is skipped; order is
    kept.  Without a filter this is what is shown.  With a filter the
    predicate reads the title of each value in turn and throws on an
    inherited one; when all are tasks, those that match are shown, in
    order.  Without a board nothing is shown. *)
Theorem filtered_tasks_are_the_listed_matches
    (toLowerCase : string → string) (includes : string → string → bool)
    (b : BoardData) (filter : string) (ids : list string) :
  let found := omap (Ui.lookup_task b) ids in
  (∀ t, Ui.Card t ∈ found ↔ ∃ id, id ∈ ids ∧ tasks b !! id = Some t) ∧
  (∀ k, Ui.Builtin k ∈ found
        ↔ k ∈ ids ∧ tasks b !! k = None ∧ k ∈ Js.prototype_names) ∧
  (filter = "" →
   Ui.getFilteredTasks toLowerCase includes (Some b) filter ids
   = Some found) ∧
  (filter ≠ "" →
   (Ui.getFilteredTasks toLowerCase includes (Some b) filter ids = None
    ↔ ∃ k, k ∈ ids ∧ tasks b !! k = None ∧ k ∈ Js.prototype_names) ∧
   ∀ shown,
     Ui.getFilteredTasks toLowerCase includes (Some b) filter ids
     = Some shown →
     shown
     = Ui.Card
         <$> base.filter (λ t, Ui.matches toLowerCase includes filter t)
               (omap (λ id, tasks b !! id) ids)) ∧
  Ui.getFilteredTasks toLowerCase includes None filter ids = Some [].
Proof.
  intros found.
  assert (∀ k, Ui.Builtin k ∈ found
               ↔ k ∈ ids ∧ tasks b !! k = None ∧ k ∈ Js.prototype_names)
    as Hbuiltin.
  { intros k. unfold found. rewrite list_elem_of_omap. split.
    - intros (id & Hid & (-> & ? & ?)%lookup_task_Builtin). done.
    - intros (Hk & Hnone & Hname). exists k. split; [done|].
      by apply lookup_task_Builtin. }
  split; [|split; [done|split; [|split; [|done]]]].
  - intros t. unfold found. rewrite list_elem_of_omap.
    by setoid_rewrite lookup_task_Card.
  - intros ->. unfold Ui.getFilteredTasks. by cbn.
  - intros Hfilter. unfold Ui.getFilteredTasks. cbv zeta. cbn [Js.falsy].
    rewrite bool_decide_eq_false_2 by done. fold found. split.
    + rewrite filter_or_throw_None. split.
      * intros ([t|k] & Hin & Hnone); [done|]. exists k. by apply Hbuiltin.
      * intros (k & Hk). exists (Ui.Builtin k). split; [by apply Hbuiltin|done].
    + intros shown Hshown.
      assert (Forall (λ id, is_Some (Ui.lookup_task b id) →
                            is_Some (tasks b !! id)) ids) as Hown.
      { apply Forall_forall. intros id Hid [[t|k] Hlook].
        - apply lookup_task_Card in Hlook. by eexists.
        - apply lookup_task_Builtin in Hlook as (-> & Hnone & Hname).
          assert (Ui.filter_or_throw
                    (Ui.matches_shown toLowerCase includes filter) found
                  = None) as Hthrow.
          { apply filter_or_throw_None. exists (Ui.Builtin id).
            split; [by apply Hbuiltin|done]. }
          congruence. }
      assert (found = Ui.Card <$> omap (λ id, tasks b !! id) ids) as Hfound.
      { unfold found. clear Hshown Hbuiltin.
        induction ids as [|id ids IH]; [done|].
        apply Forall_cons in Hown as [Hid Hown]. cbn.
        destruct (Ui.lookup_task b id) as [s|] eqn:Hlook.
        - destruct Hid as [t Ht]; [by eexists|].
          rewrite Ht. cbn. rewrite IH by done.
          apply lookup_task_Card in Ht. congruence.
        - rewrite IH by done.
          destruct (tasks b !! id) as [t|] eqn:Ht; [|done].
          apply lookup_task_Card in Ht. congruence. }
      rewrite Hfound in Hshown.
      rewrite (filter_or_throw_cards
                 (λ t, Ui.matches toLowerCase includes filter t)) in Hshown.
      by injection Hshown as <-.
Qed.

Lemma filtered_tasks_are_the_listed_matches_witness :
  let b := Server.initialData "n" in
  Ui.getFilteredTasks id String.eqb (Some b) ""
    ["task-1"; "ghost"; "constructor"]
  = Some [Ui.Card (mkTask "task-1" "Welcome to your Kanban Board!"
                     (Some "Drag me to different columns or edit me by clicking!")
                     "n");
          Ui.Builtin "constructor"] ∧
  Ui.getFilteredTasks id String.eqb (Some b) "x"
    ["task-1"; "ghost"; "constructor"] = None.
Proof.
  cbv zeta.
  destruct (filtered_tasks_are_the_listed_matches id String.eqb
              (Server.initialData "n") "x"
              ["task-1"; "ghost"; "constructor"])
    as (_ & _ & _ & Hfilter & _).
  destruct (filtered_tasks_are_the_listed_matches id String.eqb
              (Server.initialData "n") ""
              ["task-1"; "ghost"; "constructor"])
    as (_ & _ & Hall & _).
  split.
  - rewrite Hall by done. by vm_compute.
  - apply Hfilter; [done|]. exists "constructor".
    split; [do 2 right; by left|]. split; [done|by left].
Defined.

(** On every board reached from the seed by requests in which each move
    addresses its task and each new uuid is fresh, App renders every column
    of [columnOrder] without throwing, every card it shows is a task, and
    the cards in all columns together are as many as the counter of
    SearchFilter says: the matching tasks with a filter set, all the tasks
    without. *)
Theorem shown_cards_match_the_counter
    (toLowerCase : string → string) (includes : string → string → bool)
    (now : string) (rs : list (Server.Env * Server.Request))
    (filter : string) :
  Server.admissible (Server.initialData now) rs = true →
  let b := Server.run (Server.initialData now) rs in
  ∃ cols,
    Ui.shown toLowerCase includes b filter = Some cols ∧
    length cols = 3 ∧
    (∀ s, s ∈ concat cols.*2 → ∃ t id, s = Ui.Card t ∧ tasks b !! id = Some t) ∧
    sum_list (length <$> cols.*2)
    = Ui.filteredCount toLowerCase includes (Some b) filter ∧
    (filter = "" → sum_list (length <$> cols.*2) = Ui.totalTasks (Some b)).
Proof.
  intros Hadm b.
  pose proof (run_wf _ _ (columns_wf_initial now) Hadm) as Hwf.
  pose proof (run_tasks_are_listed _ _ (columns_wf_initial now)
                (tasks_are_listed_initial now) Hadm) as Hlisted.
  pose proof (run_columnOrder_wf now rs) as Horder.
  fold b in Hwf, Hlisted, Horder.
  destruct (shown_own toLowerCase includes b filter (columnOrder b))
    as (cols & Hcols & Hfst & Hcards).
  { apply Forall_forall. intros c Hc. apply Horder in Hc as [col Hcol].
    exists col. split; [done|]. apply Forall_forall. intros id Hid.
    by apply (proj2 (proj2 Hwf) c col). }
  exists cols. split; [done|].
  assert (length cols = 3) as Hlen.
  { apply length_mapM in Hcols. rewrite <- Hcols. unfold b.
    by rewrite run_columnOrder. }
  split; [done|].
  fold (Board.listed_ids b) in Hcards.
  split.
  { intros s. rewrite Hcards. intros (t & -> & Ht)%list_elem_of_fmap.
    assert (t ∈ omap (λ id, tasks b !! id) (Board.listed_ids b)) as Hin.
    { revert Ht. destruct (Js.falsy (Some filter)); [done|].
      by intros [_ ?]%list_elem_of_filter. }
    apply list_elem_of_omap in Hin as (id & _ & Hid). by exists t, id. }
  assert (sum_list (length <$> cols.*2)
          = Ui.filteredCount toLowerCase includes (Some b) filter) as Hcount.
  { rewrite <- length_concat_sum, Hcards, length_fmap.
    rewrite <- passing_all_keys. apply Permutation_length.
    destruct (Js.falsy (Some filter));
      by rewrite (listed_ids_perm b Hwf Hlisted Horder). }
  split; [done|]. intros ->. by rewrite Hcount.
Qed.

Lemma shown_cards_match_the_counter_witness :
  let e u := Server.mkEnv u "n" "uuid-h" "n" true true in
  let rs :=
    [(e "a", Server.CreateTask (Some "Buy milk") None);
     (e "-", Server.MoveTask "a" "todo" "done" 1 0);
     (e "-", Server.DeleteTask "task-1")] in
  let b := Server.run (Server.initialData "n") rs in
  ∃ cols,
    Ui.shown id String.eqb b "Buy milk" = Some cols ∧
    sum_list (length <$> cols.*2) = 1.
Proof.
  cbv zeta.
  set (rs :=
    [(Server.mkEnv "a" "n" "uuid-h" "n" true true,
      Server.CreateTask (Some "Buy milk") None);
     (Server.mkEnv "-" "n" "uuid-h" "n" true true,
      Server.MoveTask "a" "todo" "done" 1 0);
     (Server.mkEnv "-" "n" "uuid-h" "n" true true,
      Server.DeleteTask "task-1")]).
  assert (Server.admissible (Server.initialData "n") rs = true) as Hadm
    by (vm_compute; reflexivity).
  destruct (shown_cards_match_the_counter id String.eqb "n" rs "Buy milk" Hadm)
    as (cols & Hcols & _ & _ & Hcount & _).
  exists cols. split; [done|]. rewrite Hcount. by vm_compute.
Defined.

(** Without the hypothesis the two counts can part: a move whose source
    index points past the end of the column removes nothing there and
    inserts the id a second time. *)
Example unaddressed_move_shows_a_card_twice :
  let e := Server.mkEnv "u" "n" "uuid-h" "n" true true in
  let b := Server.run (Server.initialData "n")
             [(e, Server.MoveTask "task-1" "todo" "done" 5 0)] in
  ∃ cols,
    Ui.shown id String.eqb b "" = Some cols ∧
    sum_list (length <$> cols.*2) = 2 ∧
    Ui.totalTasks (Some b) = 1.
Proof. cbv zeta. eexists. split; [by vm_compute|]. by vm_compute. Qed.

(** So can they after a move of a name of Object.prototype, which does not
    address a task: the task taken out of the source column is shown nowhere,
    the card shown in its place is no task, and with a filter set rendering
    throws. *)
Example inherited_move_shows_no_task :
  let e := Server.mkEnv "u" "n" "uuid-h" "n" true true in
  let b := Server.run (Server.initialData "n")
             [(e, Server.MoveTask "constructor" "todo" "done" 0 0)] in
  (λ cols : list (Column * list Ui.Shown), cols.*2)
    <$> Ui.shown id String.eqb b ""
  = Some [[]; []; [Ui.Builtin "constructor"]] ∧
  Ui.shown id String.eqb b "x" = None ∧
  Ui.totalTasks (Some b) = 1.
Proof. cbv zeta. by vm_compute. Qed.
